(** * Sturm-Liouville shooting solver: a shallow embedding

    Source: [src/Sturm-Liouville Problem/SturmLiouvilleSolver.py], class
    [SturmLiouvilleSolver].

    The solver's methods are written over an interface [Scalar] of the
    arithmetic operations they use.  Its instance [Binary64] is IEEE 754
    double precision (primitive floats), which is what CPython and numpy
    compute with; what does not depend on rounding is stated for any
    instance.

    What the solver imports and calls but does not define -- [np.sin],
    [np.cos], the C library's [pow] behind the operator [**] on floats, and
    [scipy.integrate.solve_ivp] with [method='RK45'] -- is a record [Extern]
    the methods are parameterised by: the statements about the methods hold
    for whatever these functions return.  The numpy array helpers
    ([linspace], [diff], [trapezoid], [sum], [array]) are written out from
    numpy's implementation.  [plot_results] is modelled by the calls it
    makes on matplotlib; console output ([print]) is not part of the
    model. *)

From Stdlib Require Import ZArith List Bool Lia.
From Stdlib Require Import Floats.
From Stdlib Require String.
Import String.StringSyntax.
Import ListNotations.

Delimit Scope string_scope with str.

Set Implicit Arguments.

(* ================================================================== *)
(** * Arithmetic interface *)

Class Scalar (F : Type) : Type := {
  add : F -> F -> F;
  sub : F -> F -> F;
  mul : F -> F -> F;
  div : F -> F -> F;
  opp : F -> F;
  (** Python [abs], [np.sqrt]. *)
  absolute : F -> F;
  np_sqrt : F -> F;
  (** Python [<] and [==] on floats. *)
  ltb : F -> F -> bool;
  eqb : F -> F -> bool;
  (** The conversion of a Python [int] operand in mixed arithmetic. *)
  of_int : Z -> F;
  np_pi : F
}.

Declare Scope py_scope.
Delimit Scope py_scope with py.
Notation "a + b" := (add a b) : py_scope.
Notation "a - b" := (sub a b) : py_scope.
Notation "a * b" := (mul a b) : py_scope.
Notation "a / b" := (div a b) : py_scope.
Notation "- a" := (opp a) : py_scope.
Notation "a <? b" := (ltb a b) : py_scope.
Notation "a =? b" := (eqb a b) : py_scope.
Notation "a >? b" := (ltb b a) (only parsing) : py_scope.
Notation "# z" := (of_int z%Z) (at level 1, format "# z") : py_scope.

(** A decimal literal [m]e[k] whose digits [m] and power of ten are both
    exactly representable: one correctly rounded division gives the literal's
    value ([1e-10] is [dec 1 (-10)], [0.5] is [dec 5 (-1)]). *)
Definition dec {F} `{Scalar F} (m k : Z) : F :=
  if (0 <=? k)%Z then of_int (m * 10 ^ k) else (of_int m / of_int (10 ^ (- k)))%py.

(* ------------------------------------------------------------------ *)
(** ** Binary64: Python floats *)

Definition float_of_int (z : Z) : float :=
  SF2Prim (binary_normalize prec emax z 0 false).

#[export] Instance Binary64 : Scalar float := {|
  add := PrimFloat.add;
  sub := PrimFloat.sub;
  mul := PrimFloat.mul;
  div := PrimFloat.div;
  opp := PrimFloat.opp;
  absolute := PrimFloat.abs;
  np_sqrt := PrimFloat.sqrt;
  ltb := PrimFloat.ltb;
  eqb := PrimFloat.eqb;
  of_int := float_of_int;
  (* [np.pi = 3.141592653589793] *)
  np_pi := 0x1.921fb54442d18p+1%float
|}.

(** The default arguments of the methods:
    [x_start=0.0001, x_end=np.pi / 2 - 0.0001, num_points=1000],
    [initial_slope=1.0], [tolerance=1e-6, max_iterations=100],
    [num_eigenvalues=8]. *)
Section Defaults.
Context {F : Type} {SC : Scalar F}.
Definition default_x_start : F := dec 1 (-4).
Definition default_x_end : F := (np_pi / #2 - dec 1 (-4))%py.
Definition default_num_points : Z := 1000.
Definition default_initial_slope : F := (#1)%py.
Definition default_tolerance : F := dec 1 (-6).
Definition default_max_iterations : Z := 100.
Definition default_num_eigenvalues : Z := 8.
End Defaults.

(* ================================================================== *)
(** * Methods: state and exceptions

    A method runs on an object and may raise.  It is a function from the
    object as it finds it to its outcome ([inr] a value; [inl] what ended
    the call without one) and the object as it leaves it. *)

Section Method.

Context {Obj Exn : Type}.

Definition Method (A : Type) : Type := Obj -> (Exn + A) * Obj.

Definition ret {A} (a : A) : Method A := fun self => (inr a, self).
Definition raise {A} (e : Exn) : Method A := fun self => (inl e, self).
Definition bind {A B} (c : Method A) (k : A -> Method B) : Method B :=
  fun self =>
    match c self with
    | (inl e, self') => (inl e, self')
    | (inr a, self') => k a self'
    end.
(** Reading an attribute, and a call that does not touch the object. *)
Definition read {A} (field : Obj -> A) : Method A :=
  fun self => (inr (field self), self).
Definition lift {A} (r : Exn + A) : Method A := fun self => (r, self).

(** A method that leaves the object as it found it. *)
Definition preserves {A} (c : Method A) : Prop :=
  forall self, snd (c self) = self.

(** [for _ in range(n): st = body(st)]. *)
Fixpoint for_range {S} (n : nat) (body : S -> Method S) (st : S) : Method S :=
  match n with
  | O => ret st
  | S k => bind (body st) (for_range k body)
  end.

End Method.

Declare Scope method_scope.
Delimit Scope method_scope with method.
Notation "v <- c ;; k" := (bind c (fun v => k))
  (at level 61, c at next level, right associativity) : method_scope.
Notation "' p <- c ;; k" := (bind c (fun v => let 'p := v in k))
  (at level 61, p pattern, c at next level, right associativity) : method_scope.

(* ================================================================== *)
(** * Exceptions and results *)

Section Solver.

Context (F : Type) {SC : Scalar F}.

(** The exceptions the solver's code can raise, directly or through numpy. *)
Inductive exn : Type :=
  (** [raise ValueError(f"Failed to converge for lambda_guess = {lambda_guess}
      after {max_iterations} iterations")] *)
| ValueError_failed_to_converge (lambda_guess : F) (max_iterations : Z)
  (** [np.linspace] with a negative number of samples. *)
| ValueError_negative_samples (num : Z)
  (** numpy: operands could not be broadcast together. *)
| ValueError_broadcast
  (** [np.array] of rows of unequal length. *)
| ValueError_inhomogeneous
  (** indexing past the end of a sequence. *)
| IndexError
  (** an exception raised inside [solve_ivp], such as scipy's [ValueError]
      for a [t_eval] that is not sorted or leaves [t_span]. *)
| SolveIvpError.

(** How a call can end without a value: by an exception, or not at all (an
    imported function that never comes back).  The code has no handler and
    no time limit, so either one ends whatever was to follow. *)
Inductive abort : Type :=
| Raised (e : exn)
| NoReturn.

Definition result (A : Type) : Type := (abort + A)%type.
Definition Ok {A} (a : A) : result A := inr a.
Definition Raise {A} (e : exn) : result A := inl (Raised e).
Definition Hang {A} : result A := inl NoReturn.

Definition rbind {A B} (r : result A) (k : A -> result B) : result B :=
  match r with
  | inl e => inl e
  | inr a => k a
  end.

(* ================================================================== *)
(** * numpy helpers *)

(** [range(lo, lo + n)] as integers. *)
Fixpoint Zrange (lo : Z) (n : nat) : list Z :=
  match n with
  | O => []
  | S k => lo :: Zrange (lo + 1) k
  end.

(** [a[-1] = v] on a non-empty array. *)
Definition set_last (a : list F) (v : F) : list F :=
  match a with
  | [] => []
  | _ => removelast a ++ [v]
  end.

(** [np.linspace(start, stop, num)] with [endpoint=True]. *)
Definition linspace_samples (start stop : F) (num : Z) : list F :=
  let div_ := (num - 1)%Z in
  let delta := (stop - start)%py in
  let y := map of_int (Zrange 0 (Z.to_nat num)) in
  let y :=
    if (0 <? div_)%Z then
      let step := (delta / #div_)%py in
      if (step =? #0)%py
      then map (fun v => (v / #div_ * delta)%py) y
      else map (fun v => (v * step)%py) y
    else map (fun v => (v * delta)%py) y in
  let y := map (fun v => (v + start)%py) y in
  if (1 <? num)%Z then set_last y stop else y.

Definition np_linspace (start stop : F) (num : Z) : result (list F) :=
  if (num <? 0)%Z then Raise (ValueError_negative_samples num)
  else Ok (linspace_samples start stop num).

(** numpy's binary operations on one-dimensional arrays: equal lengths go
    element by element, a length-one operand is stretched, anything else
    raises. *)
Fixpoint zip_with (f : F -> F -> F) (a b : list F) : list F :=
  match a, b with
  | p :: a', q :: b' => f p q :: zip_with f a' b'
  | _, _ => []
  end.

Definition broadcast (f : F -> F -> F) (a b : list F) : result (list F) :=
  if (length a =? length b)%nat then Ok (zip_with f a b)
  else match a, b with
       | [p], _ => Ok (map (f p) b)
       | _, [q] => Ok (map (fun v => f v q) a)
       | _, _ => Raise ValueError_broadcast
       end.

(** [a ** 2] on an array: handed the scalar exponent 2, numpy's power takes
    the square of each entry, [v * v]. *)
Definition np_square (a : list F) : list F := map (fun v => (v * v)%py) a.

(** [np.diff(a)]: [a[1:] - a[:-1]]. *)
Definition np_diff (a : list F) : list F := zip_with sub (tl a) (removelast a).

(** [a.sum()] on a contiguous array of floats is [np.add.reduce]: the
    result starts at the identity [0] and takes numpy's pairwise sum of the
    entries.

    The pairwise sum of fewer than eight entries adds them one by one,
    starting from [-0.0] (the sign of this zero is absorbed by the [0] the
    result starts at).  From eight entries up to 128 it keeps eight
    running sums [r[0..7]], the entry [i] going to [r[i mod 8]] for the
    whole blocks of eight; it adds them as
    [((r0 + r1) + (r2 + r3)) + ((r4 + r5) + (r6 + r7))] and then the entries
    left over, one by one.  Above 128 entries it splits the array at half
    its length, rounded down to a multiple of eight, and adds the pairwise
    sums of the two parts. *)
Fixpoint add_blocks (r a : list F) (blocks : nat) : list F * list F :=
  match blocks with
  | O => (r, a)
  | S k => add_blocks (zip_with add r (firstn 8 a)) (skipn 8 a) k
  end.

Definition pairwise_sum_unrolled (a : list F) : F :=
  let '(r, rest) := add_blocks (firstn 8 a) (skipn 8 a) (length a / 8 - 1) in
  match r with
  | [r0; r1; r2; r3; r4; r5; r6; r7] =>
      fold_left add rest (((r0 + r1) + (r2 + r3)) + ((r4 + r5) + (r6 + r7)))%py
  | _ => fold_left add a (- #0)%py
  end.

(** [depth] bounds the number of splits; the length of the array is more
    than enough (see [pairwise_sum_depth]). *)
Fixpoint pairwise_sum (depth : nat) (a : list F) : F :=
  let n := length a in
  if (n <? 8)%nat then fold_left add a (- #0)%py
  else if (n <=? 128)%nat then pairwise_sum_unrolled a
  else match depth with
       | O => pairwise_sum_unrolled a
       | S depth' =>
           let n2 := (n / 2 - (n / 2) mod 8)%nat in
           (pairwise_sum depth' (firstn n2 a) + pairwise_sum depth' (skipn n2 a))%py
       end.

Definition np_sum (a : list F) : F := (#0 + pairwise_sum (length a) a)%py.

(** [np.trapezoid(y, x)]:
    [(diff(x) * (y[1:] + y[:-1]) / 2.0).sum()]. *)
Definition np_trapezoid (y x : list F) : result F :=
  let d := np_diff x in
  let s := zip_with add (tl y) (removelast y) in
  rbind (broadcast mul d s) (fun p =>
  Ok (np_sum (map (fun v => (v / #2)%py) p))).

(** [np.array(rows)] for a list of one-dimensional arrays. *)
Definition np_array (rows : list (list F)) : result (list (list F)) :=
  match rows with
  | [] => Ok []
  | r :: rest =>
      if forallb (fun r' => (length r' =? length r)%nat) rest
      then Ok rows else Raise ValueError_inhomogeneous
  end.

(** [a[-1]]. *)
Definition index_last (a : list F) : result F :=
  match a with
  | [] => Raise IndexError
  | _ => Ok (last a (#0)%py)
  end.

(** [a[i]] on a list of rows. *)
Definition index_row (rows : list (list F)) (i : nat) : result (list F) :=
  match nth_error rows i with
  | Some r => Ok r
  | None => Raise IndexError
  end.

(* ================================================================== *)
(** * The solver object and what it calls *)

(** The instance attributes set by [__init__]. *)
Record SturmLiouvilleSolver : Type := {
  x_start : F;
  x_end : F;
  num_points : Z;
  x : list F;
  m : Z
}.

(** What [solve_ivp] returns, as far as the solver or its caller can look
    at it: the solution rows [y] and the integrator's [status] ([0] when the
    end of the interval was reached, [-1] when a step failed). *)
Record OdeResult : Type := {
  ode_y : list (list F);
  ode_status : Z
}.

Definition ode_success (r : OdeResult) : bool := (0 <=? ode_status r)%Z.

(** The imported functions.

    [libm_pow b e] is the C library's [pow(b, e)], which is what [b ** e]
    computes on a Python float and on a numpy float64 scalar, an [int]
    exponent being converted to a float first.

    [solve_ivp fun t_span y0 t_eval] stands for
    [solve_ivp(fun=fun, t_span=t_span, y0=y0, method='RK45', t_eval=t_eval)].
    An integration that broke down is reported through [status] in the
    result; the call itself can also raise, or not come back. *)
Record Extern : Type := {
  np_sin : F -> F;
  np_cos : F -> F;
  libm_pow : F -> F -> F;
  solve_ivp : (F -> F * F -> F * F) -> F * F -> F * F -> list F -> result OdeResult
}.

Variable env : Extern.

Definition M : Type -> Type := @Method SturmLiouvilleSolver abort.

Local Open Scope method_scope.

(** [b ** e] on a float [b], for an [int] literal [e]. *)
Local Notation "b ** e" := (libm_pow env b (of_int e%Z))
  (at level 30, right associativity) : py_scope.

(** ** [__init__] *)

Definition __init__ (x_start x_end : F) (num_points : Z) : result SturmLiouvilleSolver :=
  rbind (np_linspace x_start x_end num_points) (fun grid =>
  Ok {| x_start := x_start; x_end := x_end; num_points := num_points;
        x := grid; m := 1 |}).

(** ** [equation_system]

    The method has no [raise] and calls nothing that raises, so it is
    written as a plain state transformer; [solve_ivp_with_shooting] hands
    its value on the current object to the integrator. *)

Definition equation_system (x : F) (y : F * F) (lambda_val : F)
    (self : SturmLiouvilleSolver) : (F * F) * SturmLiouvilleSolver :=
  let '(u, du) := y in
  let cos_x := np_cos env x in
  let sin_x := np_sin env x in
  let cos_2x := np_cos env (#2 * x)%py in
  let sin_x := if (absolute sin_x <? dec 1 (-10))%py then dec 1 (-10) else sin_x in
  let p := (- dec 5 (-1) * cos_x ** 4)%py in
  let q := (- dec 5 (-1) * (cos_x ** 3 * cos_2x / sin_x))%py in
  let r := (#(m self ^ 2) * cos_x ** 2 / (#2 * sin_x ** 2) - cos_x / sin_x)%py in
  ((du, ((- q * du - (r - lambda_val) * u) / p)%py), self).

(** ** [solve_ivp_with_shooting] *)

Definition solve_ivp_with_shooting (lambda_val initial_slope : F)
  : M (list F * list F) :=
  let y0 := ((#0)%py, initial_slope) in
  self <- read (fun self => self) ;;
  solution <-
    lift (solve_ivp env (fun x y => fst (equation_system x y lambda_val self))
            (x_start self, x_end self) y0 (x self)) ;;
  u <- lift (index_row (ode_y solution) 0) ;;
  du <- lift (index_row (ode_y solution) 1) ;;
  ret (u, du).

(** ** [find_eigenvalue] *)

Section FindEigenvalue.

Variables (lambda_guess tolerance : F) (max_iterations : Z).

(** The [for iteration in range(max_iterations)] loop with [remaining]
    iterations to go, and the [raise] after it. *)
Fixpoint find_eigenvalue_loop (remaining : nat) (lambda_left lambda_right : F)
  : M F :=
  match remaining with
  | O => raise (Raised (ValueError_failed_to_converge lambda_guess max_iterations))
  | S remaining' =>
      let lambda_mid := ((lambda_left + lambda_right) / #2)%py in
      '(u, _) <- solve_ivp_with_shooting lambda_mid default_initial_slope ;;
      end_value <- lift (index_last u) ;;
      if (absolute end_value <? tolerance)%py then ret lambda_mid
      else if (end_value >? #0)%py
           then find_eigenvalue_loop remaining' lambda_left lambda_mid
           else find_eigenvalue_loop remaining' lambda_mid lambda_right
  end.

Definition find_eigenvalue : M F :=
  let lambda_left := (lambda_guess - #5)%py in
  let lambda_right := (lambda_guess + #5)%py in
  find_eigenvalue_loop (Z.to_nat max_iterations) lambda_left lambda_right.

End FindEigenvalue.

(** [u(end)] of the shot at [lambda_val], on the object [self]. *)
Definition end_value_at (self : SturmLiouvilleSolver) (lambda_val : F) : result F :=
  rbind (fst (solve_ivp_with_shooting lambda_val default_initial_slope self))
        (fun uv => index_last (fst uv)).

(** ** [find_multiple_eigenvalues] *)

(** What the loop carries from one iteration to the next: the local
    variables [lambda_guess], [eigenvalues] and [eigenfunctions]. *)
Definition search_state : Type := (F * list F * list (list F))%type.

(** The body of [for i in range(num_eigenvalues)]. *)
Definition find_multiple_eigenvalues_body (st : search_state) : M search_state :=
  let '(lambda_guess, eigenvalues, eigenfunctions) := st in
  lambda_val <- find_eigenvalue lambda_guess default_tolerance default_max_iterations ;;
  let eigenvalues := eigenvalues ++ [lambda_val] in
  '(u, _) <- solve_ivp_with_shooting lambda_val default_initial_slope ;;
  grid <- read x ;;
  integral <- lift (np_trapezoid (np_square u) grid) ;;
  let norm := np_sqrt integral in
  let u := map (fun v => v / norm)%py u in
  let eigenfunctions := eigenfunctions ++ [u] in
  let lambda_guess := (lambda_val + #5)%py in
  ret (lambda_guess, eigenvalues, eigenfunctions).

Definition find_multiple_eigenvalues (num_eigenvalues : Z)
  : M (list F * list (list F)) :=
  let eigenvalues := [] in
  let eigenfunctions := [] in
  let lambda_guess := (#1)%py in
  '(_, eigenvalues, eigenfunctions) <-
     for_range (Z.to_nat num_eigenvalues) find_multiple_eigenvalues_body
       (lambda_guess, eigenvalues, eigenfunctions) ;;
  efs <- lift (np_array eigenfunctions) ;;
  ret (eigenvalues, efs).

(** ** Vocabulary for the statements below *)

(** [n] iterations of the bisection from the bracket [l, r], none of which
    sees an end value below [tolerance]. *)
Inductive misses (self : SturmLiouvilleSolver) (tolerance : F) : nat -> F -> F -> Prop :=
| misses_none l r : misses self tolerance 0 l r
| misses_next n l r e :
    let lambda_mid := ((l + r) / #2)%py in
    end_value_at self lambda_mid = Ok e ->
    (absolute e <? tolerance)%py = false ->
    misses self tolerance n
      (if (e >? #0)%py then l else lambda_mid)
      (if (e >? #0)%py then lambda_mid else r) ->
    misses self tolerance (S n) l r.

(** [ef] is the shot at [lambda_val] divided by the square root of the
    trapezoidal integral of its square over the grid. *)
Definition normalised_shot (self : SturmLiouvilleSolver) (lambda_val : F) (ef : list F)
  : Prop :=
  exists u du integral,
    solve_ivp_with_shooting lambda_val default_initial_slope self = (Ok (u, du), self)
    /\ np_trapezoid (np_square u) (x self) = Ok integral
    /\ ef = map (fun v => v / np_sqrt integral)%py u.

(** The integrator answers with two rows that hold one value for each point
    of [t_eval], as [solve_ivp] does when it reaches the end of the interval. *)
Definition samples_every_point : Prop :=
  forall f t_span y0 t_eval,
    exists solution u du,
      solve_ivp env f t_span y0 t_eval = Ok solution
      /\ ode_y solution = [u; du]
      /\ length u = length t_eval /\ length du = length t_eval.

End Solver.

Arguments Ok {F A} a.
Arguments Raise {F A} e.
Arguments Hang {F A}.
Arguments NoReturn {F}.
Arguments Raised {F} e.
Arguments IndexError {F}.
Arguments SolveIvpError {F}.
Arguments ValueError_broadcast {F}.
Arguments ValueError_inhomogeneous {F}.
Arguments ValueError_negative_samples {F} num.

(* ================================================================== *)
(** * Concrete objects

    The solver the script builds, [SturmLiouvilleSolver()], and stand-ins
    for the imported functions on which the methods can be run. *)

(** [SturmLiouvilleSolver()]. *)
Definition construct_default {F} `{Scalar F} : result F (SturmLiouvilleSolver F) :=
  __init__ default_x_start default_x_end default_num_points.

(** The object it builds in binary64. *)
Definition default_solver : SturmLiouvilleSolver float :=
  {| x_start := default_x_start;
     x_end := default_x_end;
     num_points := default_num_points;
     x := linspace_samples default_x_start default_x_end default_num_points;
     m := 1 |}.

(** A stand-in for [pow] at the exponents of the source: the product of
    that many factors. *)
Definition pow_by_products {F} `{Scalar F} (b e : F) : F :=
  if (e =? #2)%py then (b * b)%py
  else if (e =? #3)%py then (b * b * b)%py
  else if (e =? #4)%py then (b * b * b * b)%py
  else b.

(** Stand-ins for [solve_ivp].  A real integrator sees the eigenvalue
    parameter only through the right-hand side it is handed; [probe] is the
    acceleration that right-hand side gives at the left end of the interval
    in the state [u = 1, u' = 0].  With [np_sin] and [np_cos] both stood in
    for by the constant [1] it is [-(1 + 2 * lambda_val)]. *)
Definition probe {F} `{Scalar F} (f : F -> F * F -> F * F) (t_span : F * F) : F :=
  snd (f (fst t_span) ((#1)%py, (#0)%py)).

(** The line through [(t_end, end_value)] with slope [-1], sampled on
    [t_eval]: a solution row whose last entry is [end_value]. *)
Definition ramp {F} `{Scalar F} (end_value : F) (t_span : F * F) (t_eval : list F)
  : list F :=
  map (fun t => (snd t_span - t + end_value)%py) t_eval.

Definition flat {F} `{Scalar F} (t_eval : list F) : list F :=
  map (fun _ => (#0)%py) t_eval.

(** An integrator that reports success and whose [u(end)] is [end_value]
    applied to the probed acceleration. *)
Definition shooting_stand_in {F} `{Scalar F} (end_value : F -> F) : Extern F :=
  {| np_sin := fun _ => (#1)%py;
     np_cos := fun _ => (#1)%py;
     libm_pow := pow_by_products;
     solve_ivp := fun f t_span y0 t_eval =>
       Ok {| ode_y := [ramp (end_value (probe f t_span)) t_span t_eval; flat t_eval];
             ode_status := 0 |} |}.

(** [u(end)] is exactly zero at [lambda_val = 1.0] and one anywhere else. *)
Definition env_pinpoint : Extern float :=
  shooting_stand_in (fun a => if (a =? -3)%float then 0%float else 1%float).

(** [u(end)] is zero at [lambda_val = 1.0] and not a number anywhere else. *)
Definition env_one_root : Extern float :=
  shooting_stand_in (fun a => if (a =? -3)%float then 0%float else nan).

(** [u(end)] is zero everywhere. *)
Definition env_flat_end : Extern float := shooting_stand_in (fun _ => 0%float).

(** An integrator whose first step produced a NaN and that gave up: status
    [-1], the first sample of [u] not a number. *)
Definition env_broken : Extern float :=
  {| np_sin := fun _ => 1%float;
     np_cos := fun _ => 1%float;
     libm_pow := pow_by_products;
     solve_ivp := fun f t_span y0 t_eval =>
       Ok {| ode_y := [nan :: tl (ramp 0%float t_span t_eval); flat t_eval];
             ode_status := -1 |} |}.

(** The same, every sample not a number. *)
Definition env_all_nan : Extern float :=
  {| np_sin := fun _ => 1%float;
     np_cos := fun _ => 1%float;
     libm_pow := pow_by_products;
     solve_ivp := fun f t_span y0 t_eval =>
       Ok {| ode_y := [map (fun _ => nan) t_eval; map (fun _ => nan) t_eval];
             ode_status := -1 |} |}.

(** [SturmLiouvilleSolver(0.0, 1.0, 2)] in binary64: the grid [[0, 1]]. *)
Definition two_point_solver : SturmLiouvilleSolver float :=
  {| x_start := 0%float; x_end := 1%float; num_points := 2;
     x := [0%float; 1%float]; m := 1 |}.

(* ================================================================== *)
(** * [plot_results]

    matplotlib keeps the figure being drawn as state of its own.  The model
    records the calls made on [plt], in order.  Of what matplotlib can raise,
    the two checks that depend on the arguments of [plot_results] are
    written out: [subplot]'s index has to lie between 1 and
    [nrows * ncols], and [plot]'s two arrays have to have the same length.
    Failures that come from outside the program (no display for the backend,
    a file that cannot be written) are not part of the model: in it the
    other calls always succeed. *)

Section Plotting.

Context (F : Type) {SC : Scalar F}.

Inductive plt_call : Type :=
  (** [plt.figure(figsize=(width, height))] *)
| plt_figure (width height : Z)
  (** [plt.subplot(nrows, ncols, index)] *)
| plt_subplot (nrows ncols index : Z)
  (** [plt.plot(xs, ys, 'b-', label=f'λ_{index} = {lambda_val:.2f}')] *)
| plt_plot (xs ys : list F) (index : Z) (lambda_val : F)
  (** [plt.grid(True)] *)
| plt_grid
  (** [plt.title(f'Eigenfunction {index}')] *)
| plt_title (index : Z)
| plt_xlabel (text : String.string)
| plt_ylabel (text : String.string)
| plt_legend
| plt_tight_layout
| plt_savefig (fname : String.string)
| plt_close.

(** The two exceptions of matplotlib that the arguments of [plot_results]
    can cause. *)
Inductive plot_exn : Type :=
  (** [subplot]: num must be an integer with 1 <= num <= nrows * ncols. *)
| ValueError_subplot (num : Z)
  (** [plot]: x and y must have same first dimension. *)
| ValueError_plot_shape (nx ny : nat).

(** [plot_results] runs on the solver object and on matplotlib's state. *)
Definition Plt : Type -> Type :=
  @Method (SturmLiouvilleSolver F * list plt_call) plot_exn.

Definition plt (c : plt_call) : Plt unit :=
  fun w => (inr tt, (fst w, snd w ++ [c])).

Definition subplot (nrows ncols index : Z) : Plt unit :=
  if ((1 <=? index) && (index <=? nrows * ncols))%Z
  then plt (plt_subplot nrows ncols index)
  else raise (ValueError_subplot index).

Definition plot (xs ys : list F) (index : Z) (lambda_val : F) : Plt unit :=
  if (length xs =? length ys)%nat
  then plt (plt_plot xs ys index lambda_val)
  else raise (ValueError_plot_shape (length xs) (length ys)).

Local Open Scope method_scope.

(** [for i, (lambda_val, u) in enumerate(zip(eigenvalues, eigenfunctions))],
    from the index [i] on. *)
Fixpoint plot_results_loop (i : Z) (pairs : list (F * list F)) : Plt unit :=
  match pairs with
  | [] => ret tt
  | (lambda_val, u) :: rest =>
      _ <- subplot 2 4 (i + 1) ;;
      grid <- read (fun w => x (fst w)) ;;
      _ <- plot grid u (i + 1) lambda_val ;;
      _ <- plt plt_grid ;;
      _ <- plt (plt_title (i + 1)) ;;
      _ <- plt (plt_xlabel "x"%str) ;;
      _ <- plt (plt_ylabel "u(x)"%str) ;;
      _ <- plt plt_legend ;;
      plot_results_loop (i + 1) rest
  end.

Definition plot_results (eigenvalues : list F) (eigenfunctions : list (list F))
  : Plt unit :=
  _ <- plt (plt_figure 15 10) ;;
  _ <- plot_results_loop 0 (combine eigenvalues eigenfunctions) ;;
  _ <- plt plt_tight_layout ;;
  _ <- plt (plt_savefig "eigenfunctions.png"%str) ;;
  plt plt_close.

(** How many of the calls are [subplot]s, and how many [savefig]s. *)
Definition is_subplot (c : plt_call) : bool :=
  match c with plt_subplot _ _ _ => true | _ => false end.
Definition is_savefig (c : plt_call) : bool :=
  match c with plt_savefig _ => true | _ => false end.

End Plotting.

Arguments plt_grid {F}.
Arguments plt_legend {F}.
Arguments plt_tight_layout {F}.
Arguments plt_close {F}.
Arguments plt_figure {F} width height.
Arguments plt_subplot {F} nrows ncols index.
Arguments plt_title {F} index.
Arguments plt_xlabel {F} text.
Arguments plt_ylabel {F} text.
Arguments plt_savefig {F} fname.

(** ** More vocabulary and stand-ins *)

(** What is asked of the C library's [pow] at the exponent 2: where the
    correctly rounded square [s * s] is a normal number, an infinity or not
    a number, [pow(s, 2)] is not a zero.  (A [pow] whose error stays below
    the value itself meets this; the C standard says nothing on the
    accuracy of [pow].) *)
Definition pow_keeps_squares_off_zero (env : Extern float) : Prop :=
  forall s : float,
    (abs (s * s) <? 0x1p-1022)%float = false ->
    is_zero (libm_pow env s (#2)%py) = false.

(** An integration that gave up after three samples. *)
Definition env_truncated : Extern float :=
  {| np_sin := fun _ => 1%float;
     np_cos := fun _ => 1%float;
     libm_pow := pow_by_products;
     solve_ivp := fun f t_span y0 t_eval =>
       Ok {| ode_y := [[1%float; 1%float; 0%float]; [0%float; 0%float; 0%float]];
             ode_status := -1 |} |}.

(** An integrator that answers with zeros everywhere. *)
Definition env_zero_shot : Extern float :=
  {| np_sin := fun _ => 1%float;
     np_cos := fun _ => 1%float;
     libm_pow := pow_by_products;
     solve_ivp := fun f t_span y0 t_eval =>
       Ok {| ode_y := [flat t_eval; flat t_eval]; ode_status := 0 |} |}.



(** An integrator that cannot cope with a large right-hand side.  Where the
    probed acceleration is below [2^332] (about [1e100]) in magnitude it
    answers with a ramp that ends at [1]; where it is larger it gives up
    before its first sample, status [-1] and a [y] without rows; where it is
    not a number it does not come back. *)
Definition env_stiff : Extern float :=
  {| np_sin := fun _ => 1%float;
     np_cos := fun _ => 1%float;
     libm_pow := pow_by_products;
     solve_ivp := fun f t_span y0 t_eval =>
       let a := probe f t_span in
       if is_nan a then Hang
       else if (abs a <? 0x1p+332)%float
            then Ok {| ode_y := [ramp 1%float t_span t_eval; flat t_eval];
                       ode_status := 0 |}
            else Ok {| ode_y := []; ode_status := -1 |} |}.

(* ================================================================== *)
(** * Facts about methods *)

Section MethodFacts.

Context {Obj Exn : Type}.
Local Abbreviation Meth := (@Method Obj Exn).

Lemma preserves_ret {A} (a : A) : preserves (ret a : Meth A).
Proof. intro self; reflexivity. Qed.

Lemma preserves_raise {A} (e : Exn) : preserves (raise e : Meth A).
Proof. intro self; reflexivity. Qed.

Lemma preserves_read {A} (field : Obj -> A) : preserves (read field : Meth A).
Proof. intro self; reflexivity. Qed.

Lemma preserves_lift {A} (r : Exn + A) : preserves (lift r : Meth A).
Proof. intro self; reflexivity. Qed.

Lemma preserves_bind {A B} (c : Meth A) (k : A -> Meth B) :
  preserves c -> (forall a, preserves (k a)) -> preserves (bind c k).
Proof.
  intros Hc Hk self. unfold bind.
  specialize (Hc self). destruct (c self) as [[e | a] self']; simpl in *; subst.
  - reflexivity.
  - apply Hk.
Qed.

Lemma preserves_for_range {S} (body : S -> Meth S) :
  (forall st, preserves (body st)) ->
  forall n st, preserves (for_range n body st).
Proof.
  intros Hbody n; induction n as [| n IH]; intro st; simpl.
  - apply preserves_ret.
  - apply preserves_bind; auto.
Qed.

(** A method that preserves the object is determined by its outcome. *)
Lemma preserves_run {A} (c : Meth A) self :
  preserves c -> c self = (fst (c self), self).
Proof.
  intro H. rewrite <- (H self) at 3. destruct (c self); reflexivity.
Qed.

Lemma bind_value {A B} (c : Meth A) (k : A -> Meth B) self a self' :
  c self = (inr a, self') -> bind c k self = k a self'.
Proof. intro H; unfold bind; rewrite H; reflexivity. Qed.

Lemma bind_raised {A B} (c : Meth A) (k : A -> Meth B) self e self' :
  c self = (inl e, self') -> bind c k self = (inl e, self').
Proof. intro H; unfold bind; rewrite H; reflexivity. Qed.

Lemma bind_value_inv {A B} (c : Meth A) (k : A -> Meth B) self b self2 :
  bind c k self = (inr b, self2) ->
  exists a self1, c self = (inr a, self1) /\ k a self1 = (inr b, self2).
Proof.
  unfold bind. destruct (c self) as [[e | a] self1]; intro H.
  - discriminate.
  - exists a, self1; auto.
Qed.

Lemma bind_assoc {A B C} (c : Meth A) (k : A -> Meth B) (h : B -> Meth C) self :
  bind (bind c k) h self = bind c (fun a => bind (k a) h) self.
Proof.
  unfold bind. destruct (c self) as [[e | a] self1]; reflexivity.
Qed.

Lemma for_range_add {S} (body : S -> Meth S) a b st self :
  for_range (a + b) body st self
  = bind (for_range a body st) (for_range b body) self.
Proof.
  revert st self; induction a as [| a IH]; intros st self; simpl.
  - reflexivity.
  - unfold bind.
    destruct (body st self) as [[e | st'] self1]; [reflexivity |].
    rewrite IH. reflexivity.
Qed.

End MethodFacts.

(* ================================================================== *)
(** * Facts that hold in any arithmetic *)

Section SolverFacts.

Context {F : Type} {SC : Scalar F}.
Variable env : Extern F.

Local Abbreviation Solver := (SturmLiouvilleSolver F).

(** ** The object is never written to *)

Lemma equation_system_self x y lambda_val (self : Solver) :
  snd (equation_system env x y lambda_val self) = self.
Proof. destruct y as [u du]; reflexivity. Qed.

Lemma solve_ivp_with_shooting_preserves lambda_val initial_slope :
  preserves (solve_ivp_with_shooting env lambda_val initial_slope).
Proof.
  unfold solve_ivp_with_shooting.
  apply preserves_bind; [apply preserves_read | intro self].
  apply preserves_bind; [apply preserves_lift | intro solution].
  apply preserves_bind; [apply preserves_lift | intro u].
  apply preserves_bind; [apply preserves_lift | intro du].
  apply preserves_ret.
Qed.

Lemma find_eigenvalue_loop_preserves lambda_guess tolerance max_iterations :
  forall remaining lambda_left lambda_right,
    preserves (find_eigenvalue_loop env lambda_guess tolerance max_iterations
                 remaining lambda_left lambda_right).
Proof.
  induction remaining as [| n IH]; intros l r; cbn [find_eigenvalue_loop].
  - apply preserves_raise.
  - apply preserves_bind; [apply solve_ivp_with_shooting_preserves | intros [u du]].
    apply preserves_bind; [apply preserves_lift | intro e].
    destruct (ltb (absolute e) tolerance); [apply preserves_ret |].
    destruct (ltb (of_int 0) e); apply IH.
Qed.

Lemma find_eigenvalue_preserves lambda_guess tolerance max_iterations :
  preserves (find_eigenvalue env lambda_guess tolerance max_iterations).
Proof. apply find_eigenvalue_loop_preserves. Qed.

Lemma find_multiple_eigenvalues_body_preserves st :
  preserves (find_multiple_eigenvalues_body env st).
Proof.
  destruct st as [[g evs] efs]. unfold find_multiple_eigenvalues_body.
  apply preserves_bind; [apply find_eigenvalue_preserves | intro lam].
  apply preserves_bind; [apply solve_ivp_with_shooting_preserves | intros [u du]].
  apply preserves_bind; [apply preserves_read | intro grid].
  apply preserves_bind; [apply preserves_lift | intro t].
  apply preserves_ret.
Qed.

Lemma find_multiple_eigenvalues_preserves num_eigenvalues :
  preserves (find_multiple_eigenvalues env num_eigenvalues).
Proof.
  unfold find_multiple_eigenvalues.
  apply preserves_bind.
  - apply preserves_for_range. apply find_multiple_eigenvalues_body_preserves.
  - intros [[g evs] efs].
    apply preserves_bind; [apply preserves_lift | intro rows].
    apply preserves_ret.
Qed.

(** ** One shot *)

(** The method hands back rows 0 and 1 of whatever the integrator returned. *)
Lemma solve_ivp_with_shooting_rows lambda_val initial_slope (self : Solver) :
  solve_ivp_with_shooting env lambda_val initial_slope self
  = (rbind (solve_ivp env (fun x y => fst (equation_system env x y lambda_val self))
              (x_start self, x_end self) (of_int 0, initial_slope) (x self))
       (fun solution =>
        rbind (index_row (ode_y solution) 0) (fun u =>
        rbind (index_row (ode_y solution) 1) (fun du => Ok (u, du)))),
     self).
Proof.
  unfold solve_ivp_with_shooting, bind, read, lift, ret; cbn zeta.
  destruct (solve_ivp env _ _ _ _) as [a | solution]; [reflexivity |].
  cbn [rbind].
  destruct (index_row _ 0) as [e | u]; [reflexivity |].
  destruct (index_row _ 1) as [e | du]; reflexivity.
Qed.

Lemma shot_of_end_value (self : Solver) lambda_val e :
  end_value_at env self lambda_val = Ok e ->
  exists u du,
    solve_ivp_with_shooting env lambda_val default_initial_slope self
      = (Ok (u, du), self)
    /\ index_last u = Ok e.
Proof.
  unfold end_value_at. intro H.
  rewrite (preserves_run self (solve_ivp_with_shooting_preserves _ _)).
  destruct (fst (solve_ivp_with_shooting env lambda_val default_initial_slope self))
    as [err | [u du]]; [discriminate |].
  exists u, du; split; [reflexivity | exact H].
Qed.

(** ** One iteration of the bisection *)

Section Bisection.

Variables (lambda_guess tolerance : F) (max_iterations : Z).
Variable self : Solver.

Local Abbreviation loop :=
  (find_eigenvalue_loop env lambda_guess tolerance max_iterations).
Local Abbreviation midpoint l r := (div (add l r) (of_int 2)).

Lemma loop_unfold n l r :
  loop (S n) l r self
  = match end_value_at env self (midpoint l r) with
    | inl err => (inl err, self)
    | inr e =>
        if ltb (absolute e) tolerance then (Ok (midpoint l r), self)
        else if ltb (of_int 0) e then loop n l (midpoint l r) self
             else loop n (midpoint l r) r self
    end.
Proof.
  cbn [find_eigenvalue_loop]. unfold end_value_at, bind at 1.
  rewrite (preserves_run self (solve_ivp_with_shooting_preserves _ _)).
  destruct (fst (solve_ivp_with_shooting env _ default_initial_slope self))
    as [err | [u du]]; [reflexivity |].
  unfold rbind, fst, bind, lift.
  destruct (index_last u) as [err | e]; [reflexivity |].
  destruct (ltb (absolute e) tolerance); [reflexivity |].
  destruct (ltb (of_int 0) e); reflexivity.
Qed.

Lemma loop_found n l r e :
  end_value_at env self (midpoint l r) = Ok e ->
  ltb (absolute e) tolerance = true ->
  loop (S n) l r self = (Ok (midpoint l r), self).
Proof. intros He Ht. rewrite loop_unfold. unfold Ok in He. rewrite He, Ht. reflexivity. Qed.

Lemma loop_move_right_bound n l r e :
  end_value_at env self (midpoint l r) = Ok e ->
  ltb (absolute e) tolerance = false ->
  ltb (of_int 0) e = true ->
  loop (S n) l r self = loop n l (midpoint l r) self.
Proof.
  intros He Ht Hs. rewrite loop_unfold. unfold Ok in He. rewrite He, Ht, Hs. reflexivity.
Qed.

Lemma loop_move_left_bound n l r e :
  end_value_at env self (midpoint l r) = Ok e ->
  ltb (absolute e) tolerance = false ->
  ltb (of_int 0) e = false ->
  loop (S n) l r self = loop n (midpoint l r) r self.
Proof.
  intros He Ht Hs. rewrite loop_unfold. unfold Ok in He. rewrite He, Ht, Hs. reflexivity.
Qed.

(** When no end value is below the tolerance the loop runs out. *)
Lemma loop_runs_out :
  (forall lam, exists e,
      end_value_at env self lam = Ok e /\ ltb (absolute e) tolerance = false) ->
  forall n l r,
    loop n l r self
    = (Raise (ValueError_failed_to_converge lambda_guess max_iterations), self).
Proof.
  intros H n; induction n as [| n IH]; intros l r.
  - reflexivity.
  - destruct (H (midpoint l r)) as (e & He & Ht).
    destruct (ltb (of_int 0) e) eqn:Hs.
    + rewrite (loop_move_right_bound n l r He Ht Hs). apply IH.
    + rewrite (loop_move_left_bound n l r He Ht Hs). apply IH.
Qed.

End Bisection.

End SolverFacts.

(* ================================================================== *)
(** * The driver, in any arithmetic *)

Section DriverFacts.

Context {F : Type} {SC : Scalar F}.
Variable env : Extern F.
Variable self : SturmLiouvilleSolver F.

Local Abbreviation search g :=
  (find_eigenvalue env g default_tolerance default_max_iterations).
Local Abbreviation shot lam :=
  (solve_ivp_with_shooting env lam default_initial_slope).
Local Abbreviation body := (find_multiple_eigenvalues_body env).

Lemma misses_run_out lambda_guess tolerance max_iterations :
  forall n l r,
    misses env self tolerance n l r ->
    find_eigenvalue_loop env lambda_guess tolerance max_iterations n l r self
    = (Raise (ValueError_failed_to_converge lambda_guess max_iterations), self).
Proof.
  intros n l r H; induction H as [l r | n l r e mid He Ht Hrest IH].
  - reflexivity.
  - subst mid. destruct (ltb (of_int 0) e) eqn:Hs.
    + rewrite (loop_move_right_bound env lambda_guess tolerance max_iterations self n l r He Ht Hs).
      exact IH.
    + rewrite (loop_move_left_bound env lambda_guess tolerance max_iterations self n l r He Ht Hs).
      exact IH.
Qed.

(** A search that raises ends the iteration with that exception. *)
Lemma body_search_raised g evs efs e self' :
  search g self = (inl e, self') ->
  body (g, evs, efs) self = (inl e, self').
Proof. intro H. unfold find_multiple_eigenvalues_body. apply bind_raised, H. Qed.

(** What an iteration that completes has done. *)
Lemma body_completed g evs efs st self' :
  body (g, evs, efs) self = (inr st, self') ->
  exists lam ef,
    search g self = (Ok lam, self)
    /\ normalised_shot env self lam ef
    /\ st = (add lam (of_int 5), evs ++ [lam], efs ++ [ef])
    /\ self' = self.
Proof.
  unfold find_multiple_eigenvalues_body. intro H.
  apply bind_value_inv in H as (lam & s1 & Hsearch & H).
  assert (s1 = self) as ->.
  { pose proof (find_eigenvalue_preserves env g default_tolerance
                  default_max_iterations self) as P.
    rewrite Hsearch in P. exact P. }
  apply bind_value_inv in H as ([u du] & s2 & Hshot & H).
  assert (s2 = self) as ->.
  { pose proof (solve_ivp_with_shooting_preserves env lam default_initial_slope self) as P.
    rewrite Hshot in P. exact P. }
  apply bind_value_inv in H as (grid & s3 & Hgrid & H).
  unfold read in Hgrid. injection Hgrid as <- <-.
  apply bind_value_inv in H as (t & s4 & Ht & H).
  unfold lift in Ht. injection Ht as Ht <-.
  unfold ret in H. injection H as <- <-.
  exists lam, (map (fun v => div v (np_sqrt t)) u). repeat split; try assumption.
  exists u, du, t. repeat split; assumption.
Qed.

Lemma body_run g evs efs lam ef :
  search g self = (Ok lam, self) ->
  normalised_shot env self lam ef ->
  body (g, evs, efs) self
  = (inr (add lam (of_int 5), evs ++ [lam], efs ++ [ef]), self).
Proof.
  intros Hsearch (u & du & t & Hshot & Ht & ->).
  unfold find_multiple_eigenvalues_body.
  rewrite (bind_value _ _ _ Hsearch).
  rewrite (bind_value _ _ _ Hshot). cbn iota beta.
  unfold bind, read, lift, ret. unfold Ok in Ht. rewrite Ht. reflexivity.
Qed.


Lemma np_array_rows (rows rows' : list (list F)) :
  np_array rows = Ok rows' -> rows' = rows.
Proof.
  unfold np_array. destruct rows as [| r rest]; [intro H; injection H; auto |].
  destruct (forallb _ rest); intro H; [injection H; auto | discriminate].
Qed.

(** What [find_multiple_eigenvalues] returns is what its loop collected. *)
Lemma find_multiple_eigenvalues_returned num_eigenvalues evs efs self' :
  find_multiple_eigenvalues env num_eigenvalues self = (Ok (evs, efs), self') ->
  exists g,
    for_range (Z.to_nat num_eigenvalues) body (of_int 1, [], []) self
    = (inr (g, evs, efs), self)
    /\ self' = self.
Proof.
  unfold find_multiple_eigenvalues. intro H.
  apply bind_value_inv in H as ([[g evs0] efs0] & s1 & Hloop & H).
  assert (s1 = self) as ->.
  { pose proof (preserves_for_range _ (find_multiple_eigenvalues_body_preserves env)
                  (Z.to_nat num_eigenvalues) (of_int 1, [], []) self) as P.
    rewrite Hloop in P. exact P. }
  apply bind_value_inv in H as (rows & s2 & Hrows & H).
  unfold lift in Hrows. injection Hrows as Hrows <-.
  unfold ret in H. injection H as <- <- <-.
  apply np_array_rows in Hrows as ->.
  exists g. auto.
Qed.

End DriverFacts.

(** The loop has run [length evs' - length evs] searches. *)
Lemma for_range_body_count {F} `{Scalar F} (env : Extern F) self n :
  forall g evs efs g' evs' efs' self',
    for_range n (find_multiple_eigenvalues_body env) (g, evs, efs) self
    = (inr (g', evs', efs'), self') ->
    length evs' = (length evs + n)%nat /\ length efs' = (length efs + n)%nat.
Proof.
  induction n as [| n IH]; intros g evs efs g' evs' efs' self' Hrun.
  - injection Hrun as <- <- <- <-. lia.
  - cbn [for_range] in Hrun. apply bind_value_inv in Hrun as (st & s1 & Hbody & Hrun).
    apply body_completed in Hbody as (lam & ef & _ & _ & -> & ->).
    apply IH in Hrun. rewrite !length_app in Hrun. simpl in Hrun. lia.
Qed.

(* ================================================================== *)
(** * Binary64 arithmetic *)

Section Binary64Facts.

Local Open Scope Z_scope.

Lemma digits2_size p : digits2_pos p = Pos.size p.
Proof. induction p; simpl; congruence. Qed.

Lemma iter_pos_nat {A} (f : A -> A) p a :
  iter_pos f p a = Nat.iter (Pos.to_nat p) f a.
Proof.
  revert a; induction p as [p IH | p IH |]; intro a; cbn [iter_pos].
  - rewrite !IH.
    change (f a) with (Nat.iter 1 f a).
    rewrite <- !Nat.iter_add. f_equal. lia.
  - rewrite !IH, <- Nat.iter_add. f_equal. lia.
  - reflexivity.
Qed.

Lemma shr_1_div2 mrs : 0 <= shr_m mrs -> shr_m (shr_1 mrs) = Z.div2 (shr_m mrs).
Proof.
  destruct mrs as [mant r s]; simpl. intro Hm.
  destruct mant as [| [p | p |] | p]; try reflexivity; lia.
Qed.

Lemma iter_shr_1 k mrs :
  0 <= shr_m mrs -> shr_m (Nat.iter k shr_1 mrs) = shr_m mrs / 2 ^ Z.of_nat k.
Proof.
  intro Hm. induction k as [| k IH].
  - simpl. now rewrite Z.div_1_r.
  - rewrite Nat2Z.inj_succ, Z.pow_succ_r by lia. simpl Nat.iter.
    rewrite shr_1_div2.
    + rewrite IH, Z.div2_div, Z.div_div by lia. f_equal; lia.
    + rewrite IH. apply Z.div_pos; lia.
Qed.

(** Shifting a non-zero significand into the format keeps it non-zero as
    long as its exponent is not below [emin]. *)
Lemma shr_fexp_positive mant e l :
  emin <= e ->
  exists mrs mant' e',
    shr_fexp prec emax (Zpos mant) e l = (mrs, e')
    /\ shr_m mrs = Zpos mant' /\ e <= e'.
Proof.
  intro He. unfold shr_fexp, shr.
  assert (Hm : shr_m (shr_record_of_loc (Zpos mant) l) = Zpos mant)
    by (destruct l as [| []]; reflexivity).
  destruct (fexp prec emax (Zdigits2 (Z.pos mant) + e) - e) as [| n | n] eqn:Hn.
  - eexists _, mant, e; repeat split; [exact Hm | lia].
  - assert (Hd : Zpos n = Zpos (digits2_pos mant) - 53).
    { unfold fexp, SpecFloat.emin, Zdigits2, prec, emax in *. lia. }
    assert (Hsz := Pos.size_le mant). rewrite <- digits2_size in Hsz.
    assert (Hpow : 2 ^ Zpos n <= Zpos mant).
    { apply Pos2Z.pos_le_pos in Hsz. rewrite Pos2Z.inj_pow in Hsz.
      change (Zpos mant~0) with (2 * Zpos mant) in Hsz.
      replace (Zpos (digits2_pos mant))
        with (Z.succ (Zpos (digits2_pos mant) - 1)) in Hsz by lia.
      rewrite Z.pow_succ_r in Hsz by lia.
      assert (2 ^ Zpos n <= 2 ^ (Zpos (digits2_pos mant) - 1))
        by (apply Z.pow_le_mono_r; lia).
      lia. }
    rewrite iter_pos_nat.
    assert (Hq : shr_m (Nat.iter (Pos.to_nat n) shr_1 (shr_record_of_loc (Z.pos mant) l))
                 = Zpos mant / 2 ^ Zpos n).
    { rewrite iter_shr_1 by (rewrite Hm; lia). rewrite Hm, positive_nat_Z. reflexivity. }
    assert (Hpos : 0 < Zpos mant / 2 ^ Zpos n) by (apply Z.div_str_pos; lia).
    destruct (Zpos mant / 2 ^ Zpos n) as [| q | q] eqn:Eq; try lia.
    eexists _, q, _; repeat split; [exact Hq | lia].
  - eexists _, mant, e; repeat split; [exact Hm | lia].
Qed.

Lemma round_nearest_even_positive mant l :
  exists mant', round_nearest_even (Zpos mant) l = Zpos mant'.
Proof.
  destruct l as [| []]; simpl; eauto; destruct mant; simpl; eauto.
Qed.

(** Rounding a non-zero significand whose exponent is at least [emin]
    never gives zero. *)
Lemma binary_round_aux_nonzero sx mant e :
  emin <= e ->
  binary_round_aux prec emax sx (Zpos mant) e loc_Exact = S754_infinity sx
  \/ exists mant' e',
      binary_round_aux prec emax sx (Zpos mant) e loc_Exact = S754_finite sx mant' e'
      /\ e <= e'.
Proof.
  intro He. unfold binary_round_aux.
  destruct (shr_fexp_positive mant loc_Exact He) as (mrs1 & m1 & e1 & E1 & M1 & L1).
  rewrite E1, M1.
  destruct (round_nearest_even_positive m1 (loc_of_shr_record mrs1)) as (m2 & E2).
  rewrite E2.
  destruct (shr_fexp_positive m2 loc_Exact (e := e1)) as (mrs3 & m3 & e3 & E3 & M3 & L3);
    [lia |].
  rewrite E3, M3.
  destruct (e3 <=? emax - prec); [right | left; reflexivity].
  exists m3, e3; split; [reflexivity | lia].
Qed.

Local Open Scope float_scope.

Lemma prim_zero : Prim2SF 0 = S754_zero false.
Proof. reflexivity. Qed.

(** [abs(e) < 0] is false for every float, NaN included. *)
Lemma abs_not_below_zero e : (abs e <? 0) = false.
Proof.
  rewrite ltb_spec, abs_spec, prim_zero.
  destruct (Prim2SF e) as [s | s | | s mant ex]; reflexivity.
Qed.

(** NaN is below no tolerance. *)
Lemma nan_not_below tolerance : (abs nan <? tolerance) = false.
Proof.
  rewrite ltb_spec. change (Prim2SF (abs nan)) with S754_nan. reflexivity.
Qed.

(** [e <= 0] excludes [e > 0]. *)
Lemma leb_zero_not_positive e : (e <=? 0) = true -> (0 <? e) = false.
Proof.
  rewrite ltb_spec, leb_spec, prim_zero.
  destruct (Prim2SF e) as [s | [] | | [] mant ex]; cbn; congruence.
Qed.

Lemma sine_floor_spec :
  Prim2SF (dec 1 (-10)) = S754_finite false 7737125245533627 (-86).
Proof. vm_compute. reflexivity. Qed.

Lemma two_spec :
  Prim2SF (float_of_int 2) = S754_finite false 4503599627370496 (-51).
Proof. vm_compute. reflexivity. Qed.

Lemma not_below_sine_floor s :
  (abs s <? dec 1 (-10)) = false ->
  match Prim2SF s with
  | S754_zero _ => False
  | S754_finite _ _ e => (-86 <= e)%Z
  | _ => True
  end.
Proof.
  rewrite ltb_spec, abs_spec, sine_floor_spec.
  destruct (Prim2SF s) as [sg | sg | | sg mant e];
    cbv beta iota delta [SFltb SFabs SFcompare]; try congruence; auto.
  destruct (Z.compare_spec e (-86)); intros; first [lia | discriminate].
Qed.

(** A float that is not below [1e-10] in magnitude is not a zero, and
    neither is twice its square. *)
Lemma unclamped_divisors s :
  (abs s <? dec 1 (-10)) = false ->
  is_zero s = false /\ is_zero (float_of_int 2 * (s * s)) = false.
Proof.
  intro H. apply not_below_sine_floor in H.
  unfold is_zero. rewrite !eqb_spec, !mul_spec, two_spec.
  change (Prim2SF zero) with (S754_zero false).
  destruct (Prim2SF s) as [sg | sg | | sg mant e]; try contradiction.
  - split; destruct sg; reflexivity.
  - split; reflexivity.
  - split; [destruct sg; reflexivity |].
    unfold SF64mul. cbn [SFmul].
    destruct (binary_round_aux_nonzero (xorb sg sg) (mant * mant) (e := e + e))
      as [E | (m' & e' & E & L)].
    { unfold SpecFloat.emin, prec, emax; lia. }
    + rewrite E. destruct (xorb sg sg); reflexivity.
    + rewrite E. cbn [SFmul].
      destruct (binary_round_aux_nonzero (xorb false (xorb sg sg))
                  (4503599627370496 * m') (e := -51 + e'))
        as [E2 | (m2 & e2 & E2 & L2)].
      { unfold SpecFloat.emin, prec, emax; lia. }
      * rewrite E2. destruct (xorb false (xorb sg sg)); reflexivity.
      * rewrite E2. destruct (xorb false (xorb sg sg)); reflexivity.
Qed.

(** The same for a significand that reaches above [emin] with its leading
    digit only. *)
Lemma shr_fexp_leading_digit mant e l :
  (emin - e < Zpos (digits2_pos mant))%Z ->
  exists mrs mant' e',
    shr_fexp prec emax (Zpos mant) e l = (mrs, e')
    /\ shr_m mrs = Zpos mant' /\ (emin <= e')%Z.
Proof.
  intro He. unfold shr_fexp, shr.
  assert (Hm : shr_m (shr_record_of_loc (Zpos mant) l) = Zpos mant)
    by (destruct l as [| []]; reflexivity).
  destruct (fexp prec emax (Zdigits2 (Z.pos mant) + e) - e)%Z as [| n | n] eqn:Hn.
  - eexists _, mant, e; repeat split; [exact Hm |].
    unfold fexp, SpecFloat.emin, Zdigits2, prec, emax in *. lia.
  - assert (Hd : (Zpos n <= Zpos (digits2_pos mant) - 1)%Z).
    { unfold fexp, SpecFloat.emin, Zdigits2, prec, emax in *. lia. }
    assert (Hsz := Pos.size_le mant). rewrite <- digits2_size in Hsz.
    assert (Hpow : (2 ^ Zpos n <= Zpos mant)%Z).
    { apply Pos2Z.pos_le_pos in Hsz. rewrite Pos2Z.inj_pow in Hsz.
      change (Zpos mant~0) with (2 * Zpos mant)%Z in Hsz.
      replace (Zpos (digits2_pos mant))
        with (Z.succ (Zpos (digits2_pos mant) - 1)) in Hsz by lia.
      rewrite Z.pow_succ_r in Hsz by lia.
      assert (2 ^ Zpos n <= 2 ^ (Zpos (digits2_pos mant) - 1))%Z
        by (apply Z.pow_le_mono_r; lia).
      lia. }
    rewrite iter_pos_nat.
    assert (Hq : shr_m (Nat.iter (Pos.to_nat n) shr_1 (shr_record_of_loc (Z.pos mant) l))
                 = (Zpos mant / 2 ^ Zpos n)%Z).
    { rewrite iter_shr_1 by (rewrite Hm; lia). rewrite Hm, positive_nat_Z. reflexivity. }
    assert (Hpos : (0 < Zpos mant / 2 ^ Zpos n)%Z) by (apply Z.div_str_pos; lia).
    destruct (Zpos mant / 2 ^ Zpos n)%Z as [| q | q] eqn:Eq; try lia.
    eexists _, q, _; repeat split; [exact Hq |].
    unfold fexp, SpecFloat.emin, Zdigits2, prec, emax in *. lia.
  - eexists _, mant, e; repeat split; [exact Hm |].
    unfold fexp, SpecFloat.emin, Zdigits2, prec, emax in *. lia.
Qed.

Lemma binary_round_aux_not_zero sx mant e :
  (emin - e < Zpos (digits2_pos mant))%Z ->
  binary_round_aux prec emax sx (Zpos mant) e loc_Exact = S754_infinity sx
  \/ exists mant' e',
      binary_round_aux prec emax sx (Zpos mant) e loc_Exact = S754_finite sx mant' e'.
Proof.
  intro He. unfold binary_round_aux.
  destruct (@shr_fexp_leading_digit mant e loc_Exact He) as (mrs1 & m1 & e1 & E1 & M1 & L1).
  rewrite E1, M1.
  destruct (round_nearest_even_positive m1 (loc_of_shr_record mrs1)) as (m2 & E2).
  rewrite E2.
  destruct (shr_fexp_positive m2 loc_Exact L1) as (mrs3 & m3 & e3 & E3 & M3 & L3).
  rewrite E3, M3.
  destruct (e3 <=? emax - prec)%Z; [right | left; reflexivity].
  exists m3, e3; reflexivity.
Qed.

(** The exponent of a float is not below [emin]. *)
Lemma finite_exponent y sg mant e :
  Prim2SF y = S754_finite sg mant e -> (emin <= e)%Z.
Proof.
  intro Hy. pose proof (Prim2SF_valid y) as Hv. rewrite Hy in Hv.
  unfold valid_binary, bounded, canonical_mantissa in Hv.
  apply andb_prop in Hv as [Hc _]. apply Z.eqb_eq in Hc.
  unfold fexp, SpecFloat.emin, prec, emax in *. lia.
Qed.

(** Twice a float that is not a zero is not a zero. *)
Lemma double_not_zero y :
  is_zero y = false -> is_zero (float_of_int 2 * y) = false.
Proof.
  unfold is_zero. rewrite !eqb_spec, mul_spec, two_spec.
  change (Prim2SF zero) with (S754_zero false).
  destruct (Prim2SF y) as [sg | sg | | sg mant e] eqn:Hy; intro Hnz.
  - discriminate.
  - destruct sg; reflexivity.
  - reflexivity.
  - apply finite_exponent in Hy.
    unfold SF64mul. cbn [SFmul].
    destruct (@binary_round_aux_not_zero (xorb false sg) (4503599627370496 * mant)
                (-51 + e)) as [E | (m' & e' & E)].
    + assert (Hsz := Pos.size_gt (4503599627370496 * mant)).
      rewrite <- digits2_size in Hsz.
      assert (Hlow : (2 ^ 52 <= Zpos (4503599627370496 * mant))%Z)
        by (rewrite Pos2Z.inj_mul; change (Zpos 4503599627370496) with (2 ^ 52)%Z; nia).
      assert (Hup : (Zpos (4503599627370496 * mant)
                     < 2 ^ Zpos (digits2_pos (4503599627370496 * mant)))%Z)
        by (rewrite <- Pos2Z.inj_pow; apply Pos2Z.pos_lt_pos; exact Hsz).
      assert (52 < Zpos (digits2_pos (4503599627370496 * mant)))%Z.
      { apply (Z.pow_lt_mono_r_iff 2); lia. }
      unfold SpecFloat.emin, prec, emax in *. lia.
    + rewrite E. destruct (xorb false sg); reflexivity.
    + rewrite E. destruct (xorb false sg); reflexivity.
Qed.

Lemma smallest_normal_spec :
  Prim2SF 0x1p-1022 = S754_finite false 4503599627370496 (-1074).
Proof. vm_compute. reflexivity. Qed.

(** A float that is not below the smallest normal number in magnitude is
    not a zero. *)
Lemma not_below_normal_not_zero y :
  (abs y <? 0x1p-1022) = false -> is_zero y = false.
Proof.
  unfold is_zero. rewrite ltb_spec, eqb_spec, abs_spec, smallest_normal_spec.
  change (Prim2SF zero) with (S754_zero false).
  destruct (Prim2SF y) as [sg | sg | | sg mant e].
  - cbv beta iota delta [SFltb SFabs SFcompare]. discriminate.
  - intros _. destruct sg; reflexivity.
  - reflexivity.
  - intros _. destruct sg; reflexivity.
Qed.

(** The square of a float that is not below [1e-10] in magnitude is not
    below the smallest normal number. *)
Lemma square_stays_normal s :
  (abs s <? dec 1 (-10)) = false -> (abs (s * s) <? 0x1p-1022) = false.
Proof.
  intro H. apply not_below_sine_floor in H.
  rewrite ltb_spec, abs_spec, mul_spec, smallest_normal_spec.
  destruct (Prim2SF s) as [sg | sg | | sg mant e]; try contradiction.
  - reflexivity.
  - reflexivity.
  - unfold SF64mul. cbn [SFmul].
    destruct (binary_round_aux_nonzero (xorb sg sg) (mant * mant) (e := e + e))
      as [E | (m' & e' & E & L)].
    { unfold SpecFloat.emin, prec, emax; lia. }
    + rewrite E. reflexivity.
    + rewrite E. cbv beta iota delta [SFltb SFabs SFcompare].
      destruct (Z.compare_spec e' (-1074)); first [lia | reflexivity].
Qed.

End Binary64Facts.

(* ================================================================== *)
(** * The concrete objects *)

#[local] Set Warnings "-inexact-float".

(** The literals of the source, as binary64 reads them. *)
Lemma binary64_literals :
  dec 1 (-10) = 1e-10%float
  /\ dec 5 (-1) = 0.5%float
  /\ default_x_start = 0.0001%float
  /\ default_x_end = 1.5706963267948966%float
  /\ default_tolerance = 1e-6%float
  /\ default_initial_slope = 1%float.
Proof. repeat split; vm_compute; reflexivity. Qed.

Lemma construct_default_solver : construct_default = Ok default_solver.
Proof. reflexivity. Qed.

Lemma construct_two_point_solver :
  __init__ 0%float 1%float 2 = Ok two_point_solver.
Proof. vm_compute. reflexivity. Qed.

Lemma default_grid_length : length (x default_solver) = 1000%nat.
Proof. vm_compute. reflexivity. Qed.

(** On a non-empty grid every shot of a stand-in has an end value. *)
Lemma stand_in_end_value {F} `{Scalar F} (g : F -> F) (self : SturmLiouvilleSolver F) :
  x self <> [] ->
  forall lam, exists e, end_value_at (shooting_stand_in g) self lam = Ok e.
Proof.
  intros Hgrid lam. unfold end_value_at.
  rewrite solve_ivp_with_shooting_rows. cbn.
  unfold ramp. destruct (x self) as [| t grid]; [contradiction |].
  cbn [map index_last]. eexists; reflexivity.
Qed.

Lemma stand_in_samples_every_point {F} `{Scalar F} (g : F -> F) :
  samples_every_point (shooting_stand_in g).
Proof.
  intros f t_span y0 t_eval. cbn.
  eexists _, _, _; split; [reflexivity | split; [reflexivity |]].
  unfold ramp, flat. rewrite !length_map. split; reflexivity.
Qed.

(** The pairwise sum does not depend on the bound on its splits, once the
    bound is at least the length of the array: [np_sum] never runs out. *)
Lemma pairwise_sum_depth {F} `{Scalar F} :
  forall (d d' : nat) (a : list F),
    (length a <= d)%nat -> (length a <= d')%nat ->
    pairwise_sum d a = pairwise_sum d' a.
Proof.
  induction d as [| d IH]; intros d' a Hd Hd'.
  - destruct a; [| simpl in Hd; lia]. destruct d'; reflexivity.
  - destruct d' as [| d'].
    + destruct a; [| simpl in Hd'; lia]. reflexivity.
    + cbn [pairwise_sum].
      destruct (length a <? 8)%nat; [reflexivity |].
      destruct (Nat.leb_spec (length a) 128) as [| Hbig]; [reflexivity |].
      assert (Hhalf : (64 <= length a / 2)%nat)
        by (apply (Nat.div_le_lower_bound (length a) 2 64); lia).
      assert (Hdouble : (2 * (length a / 2) <= length a)%nat)
        by (apply Nat.Div0.mul_div_le).
      assert (Hmod : ((length a / 2) mod 8 < 8)%nat) by (apply Nat.mod_upper_bound; lia).
      f_equal; apply IH; rewrite ?length_firstn, ?length_skipn;
        generalize dependent (length a / 2)%nat; intros h; intros;
        generalize dependent (h mod 8)%nat; intros; lia.
Qed.

Lemma removelast_length {A} (l : list A) : length (removelast l) = pred (length l).
Proof.
  induction l as [| a [| b l] IH]; try reflexivity.
  change (S (length (removelast (b :: l))) = S (length l)).
  rewrite IH. reflexivity.
Qed.

Lemma zip_with_length {F} (f : F -> F -> F) :
  forall a b, length (zip_with f a b) = Nat.min (length a) (length b).
Proof.
  induction a as [| p a IH]; intros [| q b]; simpl; try reflexivity.
  now rewrite IH.
Qed.

Lemma np_square_length {F} `{Scalar F} (a : list F) : length (np_square a) = length a.
Proof. apply length_map. Qed.

(** The trapezoidal rule is defined on arrays of equal length. *)
Lemma np_trapezoid_defined {F} `{Scalar F} (y grid : list F) :
  length y = length grid -> exists integral, np_trapezoid y grid = Ok integral.
Proof.
  intro Hlen. unfold np_trapezoid, broadcast, np_diff.
  rewrite !zip_with_length, !removelast_length.
  assert (Htl : forall l : list F, length (tl l) = pred (length l))
    by (intros [| ? ?]; reflexivity).
  rewrite !Htl, Hlen, Nat.eqb_refl. cbn [rbind Ok]. eexists; reflexivity.
Qed.

(** In binary64 a midpoint can round onto a bound of its bracket, and the
    code does not look for an eigenvalue that comes back.  With
    [env_pinpoint] ([u(end)] zero at 1.0 only) the first search returns 1.0
    from the midpoint of [[-4, 6]].  The second starts from the guess 6.0
    and the bracket [[1, 11]]; its right bound comes down until the bracket
    is [1, 1 + 2^-52], whose midpoint rounds to 1.0, the left bound, and 1.0
    is returned again.  (Whether scipy's integrator can lead there is not
    decided by the solver's code.) *)
Lemma eigenvalue_repeated_in_binary64 :
  (exists eigenfunctions,
      find_multiple_eigenvalues env_pinpoint 2 default_solver
      = (Ok ([1%float; 1%float], eigenfunctions), default_solver))
  /\ find_eigenvalue env_pinpoint 1%float default_tolerance default_max_iterations
       default_solver
     = (Ok 1%float, default_solver)
  /\ find_eigenvalue env_pinpoint (1 + 5)%float default_tolerance
       default_max_iterations default_solver
     = (Ok 1%float, default_solver)
  /\ (1 + 5 - 5 = 1)%float
  /\ ((1 + 0x1.0000000000001p+0) / 2 = 1)%float.
Proof.
  split; [| repeat split; vm_compute; reflexivity].
  eexists. vm_compute. reflexivity.
Qed.

(** The default arguments of the constructor as binary64 reads them, and
    the grid built from them: 1000 entries, [x_start + i * step] for
    [i < 999] and [x_end] last. *)
Lemma default_solver_grid :
  construct_default = Ok default_solver
  /\ x_start default_solver = 0.0001%float
  /\ x_end default_solver = (0x1.921fb54442d18p+1 / 2 - 0.0001)%float
  /\ num_points default_solver = 1000%Z
  /\ length (x default_solver) = 1000%nat
  /\ (let step := ((x_end default_solver - x_start default_solver) / 999)%float in
      x default_solver
      = set_last (map (fun i => (float_of_int i * step + x_start default_solver)%float)
                    (Zrange 0%Z 1000%nat))
          (x_end default_solver)).
Proof. do 5 (split; [vm_compute; reflexivity |]). vm_compute. reflexivity. Qed.

(** On the default solver, for any integrator: when the first search
    returns [lambda_val] and the shot at [lambda_val] has one value per grid
    point, [find_multiple_eigenvalues(1)] returns exactly the one pair of
    [lambda_val] and an eigenfunction of 1000 entries.  (Whether the first
    search returns is decided by what the integrator computes.) *)
Lemma first_eigenpair_on_default_solver (env : Extern float)
    (lambda_val : float) (u du : list float) :
  find_eigenvalue env (#1)%py default_tolerance default_max_iterations default_solver
  = (Ok lambda_val, default_solver) ->
  solve_ivp_with_shooting env lambda_val default_initial_slope default_solver
  = (Ok (u, du), default_solver) ->
  length u = 1000%nat ->
  exists eigenfunction,
    find_multiple_eigenvalues env 1 default_solver
    = (Ok ([lambda_val], [eigenfunction]), default_solver)
    /\ normalised_shot env default_solver lambda_val eigenfunction
    /\ length eigenfunction = 1000%nat.
Proof.
  intros Hsearch Hshot Hu.
  destruct (np_trapezoid_defined (np_square u) (x default_solver))
    as (integral & Hint).
  { rewrite np_square_length, Hu. symmetry. exact default_grid_length. }
  set (ef := map (fun v => v / np_sqrt integral)%py u).
  assert (Hnorm : normalised_shot env default_solver lambda_val ef)
    by (exists u, du, integral; repeat split; assumption).
  exists ef. repeat split.
  - unfold find_multiple_eigenvalues. change (Z.to_nat 1) with 1%nat. cbn [for_range].
    rewrite bind_assoc.
    rewrite (bind_value _ _ _ (body_run (#1)%py [] [] Hsearch Hnorm)).
    reflexivity.
  - exact Hnorm.
  - unfold ef. rewrite length_map. exact Hu.
Qed.

(* ================================================================== *)
(** * The claims *)

(** C1, as stated, fails.  [env_broken] stands for an integration that gave
    up (status [-1]) with a NaN in [u].  [solve_ivp_with_shooting] returns
    its rows all the same; the search accepts the end value [0] and
    [find_multiple_eigenvalues] returns an eigenfunction made of NaNs.  With
    NaN end values ([env_all_nan]) the error raised is the convergence
    error, not one of its own. *)
Lemma integration_failure_not_reported :
  (forall f t_span y0 t_eval,
      exists solution,
        solve_ivp env_broken f t_span y0 t_eval = Ok solution
        /\ ode_success solution = false)
  /\ (exists u du,
        solve_ivp_with_shooting env_broken 1%float 1%float default_solver
        = (Ok (u, du), default_solver)
        /\ existsb is_nan u = true)
  /\ (exists eigenfunction,
        find_multiple_eigenvalues env_broken 1 default_solver
        = (Ok ([1%float], [eigenfunction]), default_solver)
        /\ forallb is_nan eigenfunction = true)
  /\ find_eigenvalue env_all_nan 1%float default_tolerance default_max_iterations
       default_solver
     = (Raise (ValueError_failed_to_converge 1%float 100), default_solver).
Proof.
  split; [| split; [| split]].
  - intros f t_span y0 t_eval. eexists. split; reflexivity.
  - eexists _, _. split; vm_compute; reflexivity.
  - eexists. split; vm_compute; reflexivity.
  - vm_compute. reflexivity.
Qed.

(** C1, amended.  [solve_ivp_with_shooting] does not look at the status of
    the integrator's result or at the values in it: when [solve_ivp] returns
    a result with at least two rows, rows 0 and 1 are returned as they are;
    a result with fewer rows gives [IndexError]; and when the call to
    [solve_ivp] itself ends in an exception, or does not come back, so does
    the method.  A NaN end value is, for [find_eigenvalue], neither below
    the tolerance nor positive: the left bound moves to the midpoint and the
    search goes on. *)
Theorem shooting_returns_integrator_rows (env : Extern float)
    (self : SturmLiouvilleSolver float) (lambda_val initial_slope : float) :
  let call :=
    solve_ivp env (fun x y => fst (equation_system env x y lambda_val self))
      (x_start self, x_end self) ((#0)%py, initial_slope) (x self) in
  (forall solution u du rest,
      call = Ok solution ->
      ode_y solution = u :: du :: rest ->
      solve_ivp_with_shooting env lambda_val initial_slope self = (Ok (u, du), self))
  /\ (forall solution,
        call = Ok solution ->
        (length (ode_y solution) < 2)%nat ->
        solve_ivp_with_shooting env lambda_val initial_slope self
        = (Raise IndexError, self))
  /\ (forall a,
        call = inl a ->
        solve_ivp_with_shooting env lambda_val initial_slope self = (inl a, self))
  /\ (forall lambda_guess tolerance max_iterations n l r,
        end_value_at env self ((l + r) / 2)%float = Ok nan ->
        find_eigenvalue_loop env lambda_guess tolerance max_iterations (S n) l r self
        = find_eigenvalue_loop env lambda_guess tolerance max_iterations n
            ((l + r) / 2)%float r self).
Proof.
  cbv zeta. split; [| split; [| split]].
  - intros solution u du rest Hcall Hrows. rewrite solve_ivp_with_shooting_rows.
    unfold Ok in Hcall. rewrite Hcall. cbn [rbind]. rewrite Hrows. reflexivity.
  - intros solution Hcall Hrows. rewrite solve_ivp_with_shooting_rows.
    unfold Ok in Hcall. rewrite Hcall. cbn [rbind].
    destruct (ode_y solution) as [| u [| du rest]]; [reflexivity | reflexivity |].
    cbn in Hrows. lia.
  - intros a Hcall. rewrite solve_ivp_with_shooting_rows, Hcall. reflexivity.
  - intros g tol mx n l r He.
    apply (loop_move_left_bound env g tol mx self n l r He).
    + apply nan_not_below.
    + reflexivity.
Qed.

Lemma shooting_returns_integrator_rows_witness :
  exists u du,
    solve_ivp_with_shooting env_broken 1%float 1%float default_solver
    = (Ok (u, du), default_solver).
Proof.
  eexists _, _.
  refine (proj1 (shooting_returns_integrator_rows env_broken default_solver
                   1%float 1%float) _ _ _ [] _ _); reflexivity.
Defined.

(** C2.  For every guess, tolerance and [max_iterations], [find_eigenvalue]
    runs its loop from the bracket [[guess - 5, guess + 5]].  An iteration
    on the bracket [[l, r]] takes [u(end)] at the midpoint [(l + r) / 2]:
    when [|u(end)| < tolerance] it returns the midpoint; otherwise it goes
    on with [[l, midpoint]] when [u(end) > 0] and with [[midpoint, r]] when
    [u(end) <= 0]. *)
Theorem find_eigenvalue_bisects (env : Extern float)
    (self : SturmLiouvilleSolver float) (lambda_guess tolerance : float)
    (max_iterations : Z) :
  let loop := find_eigenvalue_loop env lambda_guess tolerance max_iterations in
  find_eigenvalue env lambda_guess tolerance max_iterations self
  = loop (Z.to_nat max_iterations) (lambda_guess - 5)%float (lambda_guess + 5)%float self
  /\ forall (n : nat) (l r end_value : float),
       let lambda_mid := ((l + r) / 2)%float in
       end_value_at env self lambda_mid = Ok end_value ->
       ((abs end_value <? tolerance)%float = true ->
          loop (S n) l r self = (Ok lambda_mid, self))
       /\ ((abs end_value <? tolerance)%float = false ->
           (0 <? end_value)%float = true ->
             loop (S n) l r self = loop n l lambda_mid self)
       /\ ((abs end_value <? tolerance)%float = false ->
           (end_value <=? 0)%float = true ->
             loop (S n) l r self = loop n lambda_mid r self).
Proof.
  intro loop. split; [reflexivity |].
  intros n l r e mid He. subst loop. repeat split.
  - intro Ht. exact (loop_found env lambda_guess tolerance max_iterations self n l r He Ht).
  - intros Ht Hs.
    exact (loop_move_right_bound env lambda_guess tolerance max_iterations self n l r
             He Ht Hs).
  - intros Ht Hs. apply leb_zero_not_positive in Hs.
    exact (loop_move_left_bound env lambda_guess tolerance max_iterations self n l r
             He Ht Hs).
Qed.

Lemma find_eigenvalue_bisects_witness :
  find_eigenvalue_loop env_pinpoint 1%float default_tolerance 100 3 (-4)%float 16%float
    default_solver
  = find_eigenvalue_loop env_pinpoint 1%float default_tolerance 100 2 (-4)%float 6%float
      default_solver
  /\ find_eigenvalue_loop env_pinpoint 1%float default_tolerance 100 2 (-4)%float 6%float
       default_solver
     = (Ok 1%float, default_solver).
Proof.
  split.
  - refine (proj1 (proj2 (proj2 (find_eigenvalue_bisects env_pinpoint default_solver
                                    1%float default_tolerance 100)
                            2%nat (-4)%float 16%float 1%float _)) _ _);
      vm_compute; reflexivity.
  - refine (proj1 (proj2 (find_eigenvalue_bisects env_pinpoint default_solver
                            1%float default_tolerance 100)
                     1%nat (-4)%float 6%float 0%float _) _);
      vm_compute; reflexivity.
Defined.

(** C3, as stated, fails: what a call with tolerance [0] and three
    iterations does depends on the guess.  [env_stiff] stands for an
    integrator that gives up at once on a right-hand side too large for it,
    handing back a result without samples (as [solve_ivp] does when its
    first step fails), and that does not come back from one that is not a
    number.  At the guess [1.0] the call raises the convergence error; at
    the guess [1e300] the first shot finds no row [solution.y[0]] and the
    call raises [IndexError]; at the guess NaN it does not return. *)
Lemma convergence_error_depends_on_guess :
  find_eigenvalue env_stiff 1%float 0%float 3 default_solver
  = (Raise (ValueError_failed_to_converge 1%float 3), default_solver)
  /\ find_eigenvalue env_stiff 1e300%float 0%float 3 default_solver
     = (Raise IndexError, default_solver)
  /\ find_eigenvalue env_stiff nan 0%float 3 default_solver
     = (Hang, default_solver).
Proof. repeat split; vm_compute; reflexivity. Qed.

(** C3, amended.  If [max_iterations] iterations go by, each with an end
    value from its shot and none with [|u(end)|] below the tolerance,
    [find_eigenvalue] raises the convergence error, which carries the guess
    it was called with and [max_iterations], and returns no value.  With
    tolerance [0] no call returns a value, for any guess and any
    [max_iterations], and when every shot delivers an end value the call
    raises the convergence error.  A first shot that ends without an end
    value -- in an exception, or by not coming back -- ends the call the
    same way. *)
Theorem find_eigenvalue_convergence_error (env : Extern float)
    (self : SturmLiouvilleSolver float) (lambda_guess : float) (max_iterations : Z) :
  (forall tolerance,
      misses env self tolerance (Z.to_nat max_iterations)
        (lambda_guess - 5)%float (lambda_guess + 5)%float ->
      find_eigenvalue env lambda_guess tolerance max_iterations self
      = (Raise (ValueError_failed_to_converge lambda_guess max_iterations), self))
  /\ (forall lambda_val self',
        find_eigenvalue env lambda_guess 0%float max_iterations self
        <> (Ok lambda_val, self'))
  /\ ((forall lambda_val, exists end_value,
          end_value_at env self lambda_val = Ok end_value) ->
      find_eigenvalue env lambda_guess 0%float max_iterations self
      = (Raise (ValueError_failed_to_converge lambda_guess max_iterations), self))
  /\ (forall tolerance a,
        (0 < max_iterations)%Z ->
        end_value_at env self ((lambda_guess - 5 + (lambda_guess + 5)) / 2)%float
        = inl a ->
        find_eigenvalue env lambda_guess tolerance max_iterations self = (inl a, self)).
Proof.
  split; [| split; [| split]].
  - intros tolerance Hmiss. unfold find_eigenvalue.
    exact (misses_run_out lambda_guess max_iterations Hmiss).
  - unfold find_eigenvalue.
    generalize (lambda_guess - #5)%py (lambda_guess + #5)%py.
    induction (Z.to_nat max_iterations) as [| n IH]; intros l r v self'.
    + discriminate.
    + rewrite loop_unfold.
      destruct (end_value_at env self ((l + r) / #2)%py) as [err | e]; [discriminate |].
      change (ltb (absolute e) 0%float) with (abs e <? 0)%float.
      rewrite abs_not_below_zero.
      destruct (ltb (#0)%py e); apply IH.
  - intro Hshots. unfold find_eigenvalue. apply loop_runs_out.
    intro lam. destruct (Hshots lam) as (e & He).
    exists e. split; [exact He | apply abs_not_below_zero].
  - intros tolerance a Hmax Hshot. unfold find_eigenvalue.
    destruct (Z.to_nat max_iterations) as [| n] eqn:Hn; [lia |].
    rewrite loop_unfold.
    change (end_value_at env self ((lambda_guess - #5 + (lambda_guess + #5)) / #2)%py)
      with (end_value_at env self ((lambda_guess - 5 + (lambda_guess + 5)) / 2)%float).
    rewrite Hshot. reflexivity.
Qed.

Lemma find_eigenvalue_convergence_error_witness :
  find_eigenvalue env_pinpoint 7%float default_tolerance 3 default_solver
  = (Raise (ValueError_failed_to_converge 7%float 3), default_solver)
  /\ find_eigenvalue env_pinpoint 7%float 0%float 3 default_solver
     = (Raise (ValueError_failed_to_converge 7%float 3), default_solver)
  /\ find_eigenvalue env_stiff 1e300%float 0%float 3 default_solver
     = (Raise IndexError, default_solver).
Proof.
  split; [| split].
  - refine (proj1 (find_eigenvalue_convergence_error env_pinpoint default_solver
                     7%float 3) default_tolerance _).
    repeat (eapply misses_next with (e := 1%float);
            [vm_compute; reflexivity | vm_compute; reflexivity | ]).
    apply misses_none.
  - refine (proj1 (proj2 (proj2 (find_eigenvalue_convergence_error env_pinpoint
                                    default_solver 7%float 3))) _).
    apply stand_in_end_value. vm_compute. discriminate.
  - refine (proj2 (proj2 (proj2 (find_eigenvalue_convergence_error env_stiff
                                    default_solver 1e300%float 3)))
              0%float _ _ _).
    + lia.
    + vm_compute. reflexivity.
Defined.




(** C6.  If the search for eigenvalue number [i] (counting from zero, after
    [i] pairs have been found) raises, [find_multiple_eigenvalues] raises
    that same exception at once: the [i] pairs found so far are not
    returned and no later index is tried. *)
Theorem search_failure_aborts {F} `{Scalar F} (env : Extern F)
    (self self' : SturmLiouvilleSolver F) (i : nat) (num_eigenvalues : Z)
    (lambda_guess : F) (eigenvalues : list F) (eigenfunctions : list (list F))
    (e : exn F) :
  (Z.of_nat i < num_eigenvalues)%Z ->
  for_range i (find_multiple_eigenvalues_body env) ((#1)%py, [], []) self
  = (inr (lambda_guess, eigenvalues, eigenfunctions), self) ->
  find_eigenvalue env lambda_guess default_tolerance default_max_iterations self
  = (Raise e, self') ->
  length eigenvalues = i
  /\ find_multiple_eigenvalues env num_eigenvalues self = (Raise e, self').
Proof.
  intros Hi Hprefix Hsearch. split.
  - apply for_range_body_count in Hprefix. simpl in Hprefix. lia.
  - unfold find_multiple_eigenvalues.
    apply bind_raised.
    replace (Z.to_nat num_eigenvalues)
      with (i + S (Z.to_nat num_eigenvalues - S i))%nat by lia.
    rewrite for_range_add.
    rewrite (bind_value _ _ _ Hprefix). cbn [for_range].
    apply bind_raised. apply body_search_raised. exact Hsearch.
Qed.

Lemma search_failure_aborts_witness :
  length [1%float] = 1%nat
  /\ find_multiple_eigenvalues env_one_root 3 default_solver
     = (Raise (ValueError_failed_to_converge 6%float 100), default_solver).
Proof.
  refine (@search_failure_aborts _ _ env_one_root default_solver _ 1%nat 3
            6%float [1%float] _ _ _ _ _).
  - reflexivity.
  - vm_compute. reflexivity.
  - vm_compute. reflexivity.
Defined.

(** C7.  For every [x], state [(u, u')] and [lambda_val], [equation_system]
    uses as [sin_x] the value [1e-10] whenever [|sin(x)| < 1e-10] and
    [sin(x)] otherwise.  The divisor [sin_x] is never a zero; neither is the
    divisor [2 * sin_x ** 2], with a [pow] that does not turn a square of
    normal size into zero.  The call returns the solver object untouched,
    with a value that is a function of [x], the state, [lambda_val] and the
    mode number only. *)
Theorem equation_system_clamps_sine (env : Extern float)
    (self : SturmLiouvilleSolver float) (x u du lambda_val : float) :
  let cos_x := np_cos env x in
  let cos_2x := np_cos env (#2 * x)%py in
  let sin_x :=
    if (abs (np_sin env x) <? dec 1 (-10))%float then dec 1 (-10) else np_sin env x in
  let p := (- dec 5 (-1) * libm_pow env cos_x (#4))%py in
  let q := (- dec 5 (-1) * (libm_pow env cos_x (#3) * cos_2x / sin_x))%py in
  let r := (#(m self ^ 2) * libm_pow env cos_x (#2) / (#2 * libm_pow env sin_x (#2))
            - cos_x / sin_x)%py in
  equation_system env x (u, du) lambda_val self
  = ((du, ((- q * du - (r - lambda_val) * u) / p)%py), self)
  /\ is_zero sin_x = false
  /\ (pow_keeps_squares_off_zero env ->
      is_zero (#2 * libm_pow env sin_x (#2))%py = false).
Proof.
  intros cos_x cos_2x sin_x p q r. split; [reflexivity |].
  assert (Hfloor : (abs sin_x <? dec 1 (-10))%float = false).
  { subst sin_x. destruct (abs (np_sin env x) <? dec 1 (-10))%float eqn:Hclamp;
      [vm_compute; reflexivity | exact Hclamp]. }
  split.
  - exact (proj1 (unclamped_divisors Hfloor)).
  - intro Hpow. apply double_not_zero, Hpow, square_stays_normal, Hfloor.
Qed.

Lemma equation_system_clamps_sine_witness :
  is_zero (#2 * libm_pow env_flat_end 1%float (#2))%py = false.
Proof.
  refine (proj2 (proj2 (equation_system_clamps_sine env_flat_end default_solver
                          0%float 0%float 1%float 1%float)) _).
  intros s Hs. change (libm_pow env_flat_end s (#2)%py) with (s * s)%float.
  exact (not_below_normal_not_zero Hs).
Defined.

(** C9.  After construction every solver operation -- [equation_system],
    [solve_ivp_with_shooting], [find_eigenvalue] and
    [find_multiple_eigenvalues] -- hands the solver object back as it found
    it, whatever the outcome: [x_start], [x_end], [num_points], the grid [x]
    and the mode number [m] are never written to. *)
Theorem solver_fields_unchanged {F} `{Scalar F} (env : Extern F)
    (self : SturmLiouvilleSolver F) :
  (forall x y lambda_val, snd (equation_system env x y lambda_val self) = self)
  /\ (forall lambda_val initial_slope,
        snd (solve_ivp_with_shooting env lambda_val initial_slope self) = self)
  /\ (forall lambda_guess tolerance max_iterations,
        snd (find_eigenvalue env lambda_guess tolerance max_iterations self) = self)
  /\ (forall num_eigenvalues,
        snd (find_multiple_eigenvalues env num_eigenvalues self) = self).
Proof.
  split; [| split; [| split]]; intros.
  - apply equation_system_self.
  - apply solve_ivp_with_shooting_preserves.
  - apply find_eigenvalue_preserves.
  - apply find_multiple_eigenvalues_preserves.
Qed.

(* ================================================================== *)
(** * Further properties of the code *)

(** ** The constructor and its grid *)

Lemma Zrange_length lo n : length (Zrange lo n) = n.
Proof. revert lo; induction n as [| n IH]; intro lo; simpl; [| rewrite IH]; reflexivity. Qed.

Lemma set_last_length {F} (a : list F) v : length (set_last a v) = length a.
Proof.
  destruct a as [| p a]; [reflexivity |]. unfold set_last.
  rewrite length_app, removelast_length. simpl. lia.
Qed.

Lemma set_last_last {F} (a : list F) v d : a <> [] -> last (set_last a v) d = v.
Proof.
  destruct a as [| p a]; [congruence | intros _]. unfold set_last. apply last_last.
Qed.

Lemma linspace_samples_length {F} `{Scalar F} (start stop : F) num :
  length (linspace_samples start stop num) = Z.to_nat num.
Proof.
  unfold linspace_samples.
  assert (Hlen : forall g : F -> F,
             length (map (fun v => (v + start)%py) (map g (map of_int (Zrange 0 (Z.to_nat num)))))
             = Z.to_nat num)
    by (intro g; rewrite !length_map; apply Zrange_length).
  destruct (1 <? num)%Z; rewrite ?set_last_length;
    destruct (0 <? num - 1)%Z; try destruct (eqb _ _); apply Hlen.
Qed.

(** X1.  [SturmLiouvilleSolver(x_start, x_end, num_points)] raises numpy's
    ValueError when [num_points] is negative.  Otherwise it builds an object
    that stores the three arguments, the mode number 1 and a grid of exactly
    [num_points] entries, the last of which is [x_end] itself as soon as
    there are two entries. *)
Theorem constructor_builds_grid {F} `{Scalar F} (x_start x_end : F) (num_points : Z) :
  ((num_points < 0)%Z ->
     __init__ x_start x_end num_points = Raise (ValueError_negative_samples num_points))
  /\ ((0 <= num_points)%Z ->
      exists grid,
        __init__ x_start x_end num_points
        = Ok {| x_start := x_start; x_end := x_end; num_points := num_points;
                x := grid; m := 1 |}
        /\ length grid = Z.to_nat num_points
        /\ ((2 <= num_points)%Z -> last grid x_start = x_end)).
Proof.
  unfold __init__, np_linspace. split; intro Hnum.
  - apply Z.ltb_lt in Hnum. rewrite Hnum. reflexivity.
  - apply Z.ltb_ge in Hnum. rewrite Hnum.
    exists (linspace_samples x_start x_end num_points).
    split; [reflexivity | split; [apply linspace_samples_length |]].
    intro Htwo. unfold linspace_samples.
    assert (Hlt : (1 <? num_points)%Z = true) by (apply Z.ltb_lt; lia).
    rewrite Hlt. apply set_last_last.
    destruct (Z.to_nat num_points) as [| n] eqn:Hn; [lia |].
    destruct (0 <? num_points - 1)%Z; try destruct (eqb _ _); simpl; discriminate.
Qed.

(** ** An integrator that samples every grid point *)

Section SampledShots.

Context {F : Type} {SC : Scalar F}.
Variable env : Extern F.
Variable self : SturmLiouvilleSolver F.
Hypothesis Hsamples : samples_every_point env.

Lemma sampled_shot lambda_val initial_slope :
  exists u du,
    solve_ivp_with_shooting env lambda_val initial_slope self = (Ok (u, du), self)
    /\ length u = length (x self).
Proof.
  destruct (Hsamples (fun t y => fst (equation_system env t y lambda_val self))
              (x_start self, x_end self) ((#0)%py, initial_slope) (x self))
    as (solution & u & du & Hcall & Hrows & Hu & _).
  exists u, du. split; [| exact Hu].
  rewrite solve_ivp_with_shooting_rows. unfold Ok in Hcall. rewrite Hcall.
  cbn [rbind]. rewrite Hrows. reflexivity.
Qed.

Lemma sampled_end_value lambda_val :
  x self <> [] -> exists e, end_value_at env self lambda_val = Ok e.
Proof.
  intro Hgrid. unfold end_value_at.
  destruct (sampled_shot lambda_val default_initial_slope) as (u & du & -> & Hu).
  cbn [fst rbind]. destruct u as [| v u].
  - destruct (x self); [contradiction | discriminate].
  - eexists; reflexivity.
Qed.

Lemma sampled_end_value_empty lambda_val :
  x self = [] -> end_value_at env self lambda_val = Raise IndexError.
Proof.
  intro Hgrid. unfold end_value_at.
  destruct (sampled_shot lambda_val default_initial_slope) as (u & du & -> & Hu).
  rewrite Hgrid in Hu. destruct u; [reflexivity | discriminate].
Qed.

Lemma sampled_normalised_shot lambda_val :
  exists ef, normalised_shot env self lambda_val ef.
Proof.
  destruct (sampled_shot lambda_val default_initial_slope) as (u & du & Hshot & Hu).
  destruct (np_trapezoid_defined (np_square u) (x self))
    as (integral & Hint); [rewrite np_square_length; exact Hu |].
  exists (map (fun v => v / np_sqrt integral)%py u), u, du, integral.
  repeat split; assumption.
Qed.

Lemma sampled_normalised_shot_length lambda_val ef :
  normalised_shot env self lambda_val ef -> length ef = length (x self).
Proof.
  intros (u & du & integral & Hshot & _ & ->).
  destruct (sampled_shot lambda_val default_initial_slope) as (u' & du' & Hshot' & Hu).
  rewrite Hshot in Hshot'. injection Hshot' as -> _.
  rewrite length_map. exact Hu.
Qed.

(** On a non-empty grid the bisection can only fail by running out. *)
Lemma sampled_loop_raises lambda_guess tolerance max_iterations :
  x self <> [] ->
  forall n l r e self',
    find_eigenvalue_loop env lambda_guess tolerance max_iterations n l r self
    = (inl e, self') ->
    e = Raised (ValueError_failed_to_converge lambda_guess max_iterations).
Proof.
  intros Hgrid n; induction n as [| n IH]; intros l r e self' Hrun.
  - injection Hrun as <- _. reflexivity.
  - rewrite loop_unfold in Hrun.
    destruct (sampled_end_value (div (add l r) (of_int 2)) Hgrid) as [v Hv].
    unfold Ok in Hv. rewrite Hv in Hrun.
    destruct (ltb (absolute v) tolerance); [discriminate |].
    destruct (ltb (of_int 0) v); exact (IH _ _ _ _ Hrun).
Qed.

(** On an empty grid the first shot has no last entry. *)
Lemma sampled_loop_empty_grid lambda_guess tolerance max_iterations n l r :
  x self = [] ->
  find_eigenvalue_loop env lambda_guess tolerance max_iterations (S n) l r self
  = (Raise IndexError, self).
Proof.
  intro Hgrid. rewrite loop_unfold.
  rewrite (sampled_end_value_empty _ Hgrid). reflexivity.
Qed.

Lemma sampled_body_raises g evs efs e self' :
  x self <> [] ->
  find_multiple_eigenvalues_body env (g, evs, efs) self = (inl e, self') ->
  e = Raised (ValueError_failed_to_converge g default_max_iterations).
Proof.
  intros Hgrid Hrun.
  destruct (find_eigenvalue env g default_tolerance default_max_iterations self)
    as [[e' | lam] s1] eqn:Hsearch.
  - rewrite (body_search_raised env self g evs efs Hsearch) in Hrun.
    injection Hrun as <- _.
    exact (sampled_loop_raises _ _ _ Hgrid _ _ _ Hsearch).
  - assert (s1 = self) as ->.
    { pose proof (find_eigenvalue_preserves env g default_tolerance
                    default_max_iterations self) as P.
      rewrite Hsearch in P. exact P. }
    destruct (sampled_normalised_shot lam) as [ef Hn].
    rewrite (@body_run F SC env self g evs efs lam ef Hsearch Hn) in Hrun. discriminate.
Qed.

Lemma sampled_for_range_raises n :
  x self <> [] ->
  forall g evs efs e self',
    for_range n (find_multiple_eigenvalues_body env) (g, evs, efs) self = (inl e, self') ->
    exists g', e = Raised (ValueError_failed_to_converge g' default_max_iterations).
Proof.
  intro Hgrid. induction n as [| n IH]; intros g evs efs e self' Hrun.
  - discriminate.
  - cbn [for_range] in Hrun. unfold bind in Hrun.
    destruct (find_multiple_eigenvalues_body env (g, evs, efs) self)
      as [[e' | [[g1 evs1] efs1]] s1] eqn:Hbody.
    + injection Hrun as <- _. exists g.
      exact (sampled_body_raises _ _ _ Hgrid Hbody).
    + apply body_completed in Hbody as (lam & ef & _ & _ & _ & ->).
      exact (IH _ _ _ _ _ Hrun).
Qed.

Lemma sampled_for_range_lengths n :
  forall g evs efs g' evs' efs' self',
    for_range n (find_multiple_eigenvalues_body env) (g, evs, efs) self
    = (inr (g', evs', efs'), self') ->
    Forall (fun ef => length ef = length (x self)) efs ->
    Forall (fun ef => length ef = length (x self)) efs'.
Proof.
  induction n as [| n IH]; intros g evs efs g' evs' efs' self' Hrun Hinv.
  - injection Hrun as <- <- <- <-. exact Hinv.
  - cbn [for_range] in Hrun. apply bind_value_inv in Hrun as (st & s1 & Hbody & Hrun).
    apply body_completed in Hbody as (lam & ef & _ & Hn & -> & ->).
    apply IH in Hrun; [exact Hrun |].
    apply Forall_app; split; [exact Hinv |].
    constructor; [| constructor]. exact (sampled_normalised_shot_length Hn).
Qed.

Lemma np_array_rectangle (rows : list (list F)) (len : nat) :
  Forall (fun r => length r = len) rows -> np_array rows = Ok rows.
Proof.
  intro Hrows. unfold np_array. destruct rows as [| r rest]; [reflexivity |].
  inversion Hrows as [| ? ? Hr Hrest]; subst.
  replace (forallb _ rest) with true; [reflexivity |].
  symmetry. apply forallb_forall. intros r' Hin.
  rewrite Forall_forall in Hrest. rewrite (Hrest r' Hin). apply Nat.eqb_refl.
Qed.

(** On a non-empty grid the whole run can only fail by a search that runs
    out. *)
Lemma sampled_run_raises num_eigenvalues e self' :
  x self <> [] ->
  find_multiple_eigenvalues env num_eigenvalues self = (inl e, self') ->
  exists lambda_guess,
    e = Raised (ValueError_failed_to_converge lambda_guess default_max_iterations).
Proof.
  intros Hgrid Hrun. unfold find_multiple_eigenvalues, bind at 1 in Hrun.
  destruct (for_range (Z.to_nat num_eigenvalues) (find_multiple_eigenvalues_body env)
              ((#1)%py, [], []) self) as [[e' | [[g evs] efs]] s1] eqn:Hloop.
  - injection Hrun as <- _. exact (sampled_for_range_raises _ Hgrid _ _ _ Hloop).
  - exfalso.
    assert (Hlen : Forall (fun ef => length ef = length (x self)) efs).
    { assert (s1 = self) as ->.
      { pose proof (preserves_for_range _ (find_multiple_eigenvalues_body_preserves env)
                      (Z.to_nat num_eigenvalues) ((#1)%py, [], []) self) as P.
        rewrite Hloop in P. exact P. }
      eapply sampled_for_range_lengths; [exact Hloop | constructor]. }
    unfold bind, lift, ret in Hrun. rewrite (np_array_rectangle Hlen) in Hrun.
    discriminate.
Qed.

End SampledShots.

(** X7.  With an integrator that returns one value per grid point, what
    [find_multiple_eigenvalues] returns is rectangular:
    [max(num_eigenvalues, 0)] eigenvalues and as many eigenfunctions, each
    with one entry per grid point. *)
Theorem sampled_eigenfunctions_fit_the_grid {F} `{Scalar F} (env : Extern F)
    (self self' : SturmLiouvilleSolver F) (num_eigenvalues : Z)
    (eigenvalues : list F) (eigenfunctions : list (list F)) :
  samples_every_point env ->
  find_multiple_eigenvalues env num_eigenvalues self
  = (Ok (eigenvalues, eigenfunctions), self') ->
  length eigenvalues = Z.to_nat num_eigenvalues
  /\ length eigenfunctions = Z.to_nat num_eigenvalues
  /\ Forall (fun ef => length ef = length (x self)) eigenfunctions.
Proof.
  intros Hsamples Hrun.
  apply find_multiple_eigenvalues_returned in Hrun as (g & Hloop & _).
  pose proof (for_range_body_count _ _ _ _ _ _ Hloop) as [Hevs Hefs].
  split; [exact Hevs |]. split; [exact Hefs |].
  exact (@sampled_for_range_lengths F _ env self Hsamples _ _ _ _ _ _ _ _ Hloop (Forall_nil _)).
Qed.

Lemma sampled_eigenfunctions_fit_the_grid_witness :
  exists eigenvalues eigenfunctions,
    find_multiple_eigenvalues env_flat_end 3 two_point_solver
    = (Ok (eigenvalues, eigenfunctions), two_point_solver)
    /\ length eigenvalues = 3%nat
    /\ length eigenfunctions = 3%nat
    /\ Forall (fun ef => length ef = 2%nat) eigenfunctions.
Proof.
  eexists. eexists. split; [vm_compute; reflexivity |].
  apply (@sampled_eigenfunctions_fit_the_grid float _ env_flat_end two_point_solver
           two_point_solver 3).
  - apply stand_in_samples_every_point.
  - vm_compute. reflexivity.
Defined.

(** X8.  With an integrator that returns one value per grid point,
    [find_multiple_eigenvalues] raises nothing but the convergence error of
    one of its searches, and on an empty grid nothing but the [IndexError]
    of [u[-1]]: numpy's shape errors (operands that cannot be broadcast,
    rows of unequal length) do not occur. *)
Theorem sampled_run_raises_only_convergence {F} `{Scalar F} (env : Extern F)
    (self self' : SturmLiouvilleSolver F) (num_eigenvalues : Z) (e : exn F) :
  samples_every_point env ->
  find_multiple_eigenvalues env num_eigenvalues self = (Raise e, self') ->
  (x self <> [] ->
   exists lambda_guess,
     e = ValueError_failed_to_converge lambda_guess default_max_iterations)
  /\ (x self = [] -> e = IndexError).
Proof.
  intros Hsamples Hrun. unfold Raise in Hrun. split.
  - intro Hgrid.
    destruct (@sampled_run_raises F _ env self Hsamples _ _ _ Hgrid Hrun) as [g Hg].
    exists g. injection Hg as ->. reflexivity.
  - intro Hgrid. unfold find_multiple_eigenvalues in Hrun.
    destruct (Z.to_nat num_eigenvalues) as [| n]; [discriminate |].
    cbn [for_range] in Hrun.
    assert (Hsearch : find_eigenvalue env (#1)%py default_tolerance
                        default_max_iterations self = (Raise IndexError, self))
      by exact (@sampled_loop_empty_grid F _ env self Hsamples _ _ _ 99 _ _ Hgrid).
    rewrite (bind_raised _ _ _
               (bind_raised _ _ _ (body_search_raised env self _ [] [] Hsearch)))
      in Hrun.
    injection Hrun as <- _. reflexivity.
Qed.

Lemma sampled_run_raises_only_convergence_witness :
  (x default_solver <> [] ->
   exists lambda_guess,
     ValueError_failed_to_converge 1%float 100
     = ValueError_failed_to_converge lambda_guess default_max_iterations)
  /\ (x default_solver = [] -> ValueError_failed_to_converge 1%float 100 = IndexError).
Proof.
  apply (@sampled_run_raises_only_convergence float _ env_all_nan default_solver
           default_solver 1).
  - intros f t_span y0 t_eval. cbn.
    eexists _, _, _; split; [reflexivity | split; [reflexivity |]].
    rewrite !length_map. split; reflexivity.
  - vm_compute. reflexivity.
Defined.

Lemma broadcast_raises {F} (f : F -> F -> F) (a b : list F) :
  length a <> length b -> length a <> 1%nat -> length b <> 1%nat ->
  broadcast f a b = Raise ValueError_broadcast.
Proof.
  intros Hab Ha Hb. unfold broadcast.
  destruct (Nat.eqb_spec (length a) (length b)) as [Heq | _]; [contradiction |].
  destruct a as [| p [| p' a]]; [| simpl in Ha; congruence |];
    destruct b as [| q [| q' b]]; try reflexivity; simpl in Hb; congruence.
Qed.

(** X9.  A shot that comes back shorter (or longer) than the grid -- what
    [solve_ivp] hands over when it gives up before the end of the interval
    -- is not caught by [solve_ivp_with_shooting] or [find_eigenvalue]; if
    the first search accepts an eigenvalue whose shot has such a length,
    [find_multiple_eigenvalues] ends in numpy's broadcast [ValueError],
    raised by [np.trapezoid]. *)
Theorem truncated_shot_raises_broadcast {F} `{Scalar F} (env : Extern F)
    (self : SturmLiouvilleSolver F) (num_eigenvalues : Z)
    (lambda_val : F) (u du : list F) :
  (0 < num_eigenvalues)%Z ->
  find_eigenvalue env (#1)%py default_tolerance default_max_iterations self
  = (Ok lambda_val, self) ->
  solve_ivp_with_shooting env lambda_val default_initial_slope self
  = (Ok (u, du), self) ->
  pred (length u) <> pred (length (x self)) ->
  pred (length u) <> 1%nat ->
  pred (length (x self)) <> 1%nat ->
  find_multiple_eigenvalues env num_eigenvalues self
  = (Raise ValueError_broadcast, self).
Proof.
  intros Hn Hsearch Hshot Hlen Hu Hx.
  assert (Htl : forall l : list F, length (tl l) = pred (length l))
    by (intros [| ? ?]; reflexivity).
  assert (Hint : np_trapezoid (np_square u) (x self)
                 = Raise ValueError_broadcast).
  { unfold np_trapezoid, np_diff. rewrite broadcast_raises; [reflexivity | | |];
      rewrite ?zip_with_length, ?removelast_length, ?Htl, ?np_square_length, ?Nat.min_id;
      congruence. }
  unfold find_multiple_eigenvalues.
  destruct (Z.to_nat num_eigenvalues) as [| n] eqn:Hk; [lia |].
  cbn [for_range]. apply bind_raised. apply bind_raised.
  unfold find_multiple_eigenvalues_body.
  rewrite (bind_value _ _ _ Hsearch).
  rewrite (bind_value _ _ _ Hshot). cbn iota beta.
  unfold bind, read, lift. unfold Raise in Hint. rewrite Hint. reflexivity.
Qed.

Lemma truncated_shot_raises_broadcast_witness :
  find_multiple_eigenvalues env_truncated 8 default_solver
  = (Raise ValueError_broadcast, default_solver).
Proof.
  apply (@truncated_shot_raises_broadcast float _ env_truncated default_solver 8
           1%float [1%float; 1%float; 0%float] [0%float; 0%float; 0%float]).
  - lia.
  - vm_compute. reflexivity.
  - reflexivity.
  - rewrite default_grid_length. simpl. lia.
  - simpl. lia.
  - rewrite default_grid_length. simpl. lia.
Defined.

(** ** A norm that is not positive, in binary64 *)

(** The square root of a float that is not above zero is a zero or not a
    number. *)
Lemma sqrt_of_nonpositive (t : float) :
  (0 <? t)%float = false ->
  (exists s, Prim2SF (PrimFloat.sqrt t) = S754_zero s)
  \/ Prim2SF (PrimFloat.sqrt t) = S754_nan.
Proof.
  rewrite ltb_spec, prim_zero, sqrt_spec. unfold SF64sqrt.
  destruct (Prim2SF t) as [s | [|] | | [|] mant e]; cbn [SFsqrt];
    cbv beta iota delta [SFltb SFcompare]; intro Hlt;
    try discriminate; eauto.
Qed.

Lemma is_finite_false (v : float) :
  match Prim2SF v with
  | S754_nan | S754_infinity _ => True
  | _ => False
  end ->
  is_finite v = false.
Proof.
  unfold is_finite, is_nan, is_infinity.
  rewrite !eqb_spec, abs_spec.
  change (Prim2SF infinity) with (S754_infinity false).
  destruct (Prim2SF v) as [s | [|] | | s mant e]; intro Hv; try contradiction;
    reflexivity.
Qed.

(** A quotient by such a root is an infinity or not a number. *)
Lemma div_by_degenerate_root (t v : float) :
  (0 <? t)%float = false -> is_finite (v / PrimFloat.sqrt t) = false.
Proof.
  intro Ht. apply is_finite_false. rewrite div_spec. unfold SF64div.
  destruct (@sqrt_of_nonpositive t Ht) as [[s ->] | ->];
    destruct (Prim2SF v) as [sv | sv | | sv mant e]; exact I.
Qed.

(** X10.  Binary64: when the trapezoidal integral of the squared shot is
    not above zero (a shot of zeros, a negative sum on a decreasing grid, or
    a NaN), the iteration of [find_multiple_eigenvalues] raises nothing: it
    appends the eigenvalue and an eigenfunction of the shot's length in
    which no entry is a finite number, and goes on with the guess
    [lambda_val + 5]. *)
Theorem degenerate_norm_goes_unreported (env : Extern float)
    (self : SturmLiouvilleSolver float) (lambda_guess lambda_val : float)
    (eigenvalues : list float) (eigenfunctions : list (list float))
    (u du : list float) (integral : float) :
  find_eigenvalue env lambda_guess default_tolerance default_max_iterations self
  = (Ok lambda_val, self) ->
  solve_ivp_with_shooting env lambda_val default_initial_slope self
  = (Ok (u, du), self) ->
  np_trapezoid (np_square u) (x self) = Ok integral ->
  (0 <? integral)%float = false ->
  exists eigenfunction,
    find_multiple_eigenvalues_body env (lambda_guess, eigenvalues, eigenfunctions) self
    = (inr ((lambda_val + 5)%float, eigenvalues ++ [lambda_val],
            eigenfunctions ++ [eigenfunction]), self)
    /\ length eigenfunction = length u
    /\ forallb (fun v => negb (is_finite v)) eigenfunction = true.
Proof.
  intros Hsearch Hshot Hint Hnorm.
  exists (map (fun v => (v / PrimFloat.sqrt integral)%float) u).
  split; [| split].
  - apply (@body_run float _ env self lambda_guess eigenvalues eigenfunctions
             lambda_val _ Hsearch).
    exists u, du, integral. repeat split; assumption.
  - apply length_map.
  - apply forallb_forall. intros v Hin. apply in_map_iff in Hin as (w & <- & _).
    rewrite (@div_by_degenerate_root integral w Hnorm). reflexivity.
Qed.

Lemma degenerate_norm_goes_unreported_witness :
  exists eigenfunction,
    find_multiple_eigenvalues_body env_zero_shot (1%float, [], []) two_point_solver
    = (inr ((1 + 5)%float, [1%float], [eigenfunction]), two_point_solver)
    /\ length eigenfunction = 2%nat
    /\ forallb (fun v => negb (is_finite v)) eigenfunction = true.
Proof.
  apply (@degenerate_norm_goes_unreported env_zero_shot two_point_solver
           1%float 1%float [] [] [0%float; 0%float] [0%float; 0%float] 0%float).
  - vm_compute. reflexivity.
  - vm_compute. reflexivity.
  - vm_compute. reflexivity.
  - vm_compute. reflexivity.
Defined.

(** ** [plot_results] *)

Section PlottingFacts.

Context {F : Type} {SC : Scalar F}.
Variable self : SturmLiouvilleSolver F.

Local Abbreviation fits u := (length u = length (x self)).

(** One turn of the loop: seven calls, in this order. *)
Lemma plot_results_loop_step i lambda_val u rest calls :
  (0 <= i < 8)%Z -> fits u ->
  plot_results_loop i ((lambda_val, u) :: rest) (self, calls)
  = plot_results_loop (i + 1) rest
      (self,
       calls ++ [plt_subplot 2 4 (i + 1); plt_plot (x self) u (i + 1) lambda_val;
                 plt_grid; plt_title (i + 1); plt_xlabel "x"%str;
                 plt_ylabel "u(x)"%str; plt_legend]).
Proof.
  intros Hi Hu. cbn [plot_results_loop]. unfold bind, subplot, plot, read, plt.
  replace ((1 <=? i + 1) && (i + 1 <=? 2 * 4))%Z with true
    by (symmetry; apply andb_true_intro; split; apply Z.leb_le; lia).
  cbn [fst snd]. rewrite Hu, Nat.eqb_refl. cbn [fst snd].
  rewrite <- !app_assoc. reflexivity.
Qed.

(** A ninth subplot is refused before anything is drawn for it. *)
Lemma plot_results_loop_ninth lambda_val u rest calls :
  plot_results_loop 8 ((lambda_val, u) :: rest) (self, calls)
  = (inl (ValueError_subplot 9), (self, calls)).
Proof. reflexivity. Qed.

(** An array that does not fit the grid is refused by [plot], after the
    subplot has been made. *)
Lemma plot_results_loop_misfit i lambda_val u rest calls :
  (0 <= i < 8)%Z -> ~ fits u ->
  plot_results_loop i ((lambda_val, u) :: rest) (self, calls)
  = (inl (ValueError_plot_shape (length (x self)) (length u)),
     (self, calls ++ [plt_subplot 2 4 (i + 1)])).
Proof.
  intros Hi Hu. cbn [plot_results_loop]. unfold bind, subplot, plot, read, plt.
  replace ((1 <=? i + 1) && (i + 1 <=? 2 * 4))%Z with true
    by (symmetry; apply andb_true_intro; split; apply Z.leb_le; lia).
  cbn [fst snd].
  destruct (Nat.eqb_spec (length (x self)) (length u)) as [Heq | _];
    [exfalso; apply Hu; symmetry; exact Heq | reflexivity].
Qed.

Lemma filter_is_subplot_step (i : Z) lambda_val (u : list F) (new : list (plt_call F)) :
  filter (@is_subplot F)
    ([plt_subplot 2 4 (i + 1); plt_plot (x self) u (i + 1) lambda_val;
      plt_grid; plt_title (i + 1); plt_xlabel "x"%str;
      plt_ylabel "u(x)"%str; plt_legend] ++ new)
  = plt_subplot 2 4 (i + 1) :: filter (@is_subplot F) new.
Proof. reflexivity. Qed.

Lemma filter_is_savefig_step (i : Z) lambda_val (u : list F) (new : list (plt_call F)) :
  filter (@is_savefig F)
    ([plt_subplot 2 4 (i + 1); plt_plot (x self) u (i + 1) lambda_val;
      plt_grid; plt_title (i + 1); plt_xlabel "x"%str;
      plt_ylabel "u(x)"%str; plt_legend] ++ new)
  = filter (@is_savefig F) new.
Proof. reflexivity. Qed.

(** Up to eight pairs that fit the grid: the loop completes, with one
    subplot per pair, numbered from [i + 1] on, and nothing saved. *)
Lemma plot_results_loop_completes :
  forall pairs i calls,
    (0 <= i)%Z -> (i + Z.of_nat (length pairs) <= 8)%Z ->
    Forall (fun p => fits (snd p)) pairs ->
    exists new,
      plot_results_loop i pairs (self, calls) = (inr tt, (self, calls ++ new))
      /\ filter (@is_subplot F) new
         = map (plt_subplot 2 4) (Zrange (i + 1) (length pairs))
      /\ filter (@is_savefig F) new = [].
Proof.
  induction pairs as [| [lambda_val u] rest IH]; intros i calls Hi Hn Hfit.
  - exists []. rewrite app_nil_r. repeat split.
  - inversion Hfit as [| ? ? Hu Hrest]; subst. cbn [snd] in Hu.
    cbn [length] in Hn.
    rewrite plot_results_loop_step; [| lia | exact Hu].
    destruct (IH (i + 1)%Z
                (calls ++ [plt_subplot 2 4 (i + 1); plt_plot (x self) u (i + 1) lambda_val;
                           plt_grid; plt_title (i + 1); plt_xlabel "x"%str;
                           plt_ylabel "u(x)"%str; plt_legend]))
      as (new & Hrun & Hsub & Hsave); [lia | lia | exact Hrest |].
    eexists. split; [| split].
    + rewrite Hrun, <- app_assoc. reflexivity.
    + rewrite filter_is_subplot_step, Hsub. reflexivity.
    + rewrite filter_is_savefig_step. exact Hsave.
Qed.

(** When the loop raises, it is for a ninth subplot or for an array that
    does not fit the grid, and nothing has been saved. *)
Lemma plot_results_loop_raises :
  forall pairs i calls e w',
    (0 <= i <= 8)%Z ->
    plot_results_loop i pairs (self, calls) = (inl e, w') ->
    exists new,
      w' = (self, calls ++ new)
      /\ filter (@is_savefig F) new = []
      /\ ((e = ValueError_subplot 9 /\ (8 < i + Z.of_nat (length pairs))%Z)
          \/ exists p, In p pairs /\ ~ fits (snd p)
                       /\ e = ValueError_plot_shape (length (x self)) (length (snd p))).
Proof.
  induction pairs as [| [lambda_val u] rest IH]; intros i calls e w' Hi Hrun.
  - discriminate.
  - destruct (Z.eq_dec i 8) as [-> | Hi8].
    + rewrite plot_results_loop_ninth in Hrun. injection Hrun as <- <-.
      exists []. rewrite app_nil_r. repeat split. left. split; [reflexivity |].
      cbn [length]. lia.
    + destruct (Nat.eq_dec (length u) (length (x self))) as [Hu | Hu].
      * rewrite plot_results_loop_step in Hrun; [| lia | exact Hu].
        apply IH in Hrun as (new & -> & Hsave & Hwhy); [| lia].
        eexists. split; [rewrite <- app_assoc; reflexivity |].
        split; [rewrite filter_is_savefig_step; exact Hsave |].
        destruct Hwhy as [[-> Hlen] | (p & Hin & Hp & ->)].
        -- left. split; [reflexivity |]. cbn [length]. lia.
        -- right. exists p. repeat split; [right; exact Hin | exact Hp].
      * rewrite plot_results_loop_misfit in Hrun; [| lia | exact Hu].
        injection Hrun as <- <-.
        exists [plt_subplot 2 4 (i + 1)]. repeat split.
        right. exists (lambda_val, u). repeat split; [left; reflexivity | exact Hu].
Qed.

(** [plot_results] after a loop that completed. *)
Lemma plot_results_after_loop eigenvalues eigenfunctions calls new :
  plot_results_loop 0 (combine eigenvalues eigenfunctions)
    (self, calls ++ [plt_figure 15 10])
  = (inr tt, (self, (calls ++ [plt_figure 15 10]) ++ new)) ->
  plot_results eigenvalues eigenfunctions (self, calls)
  = (inr tt,
     (self,
      calls ++ plt_figure 15 10
               :: new ++ [plt_tight_layout; plt_savefig "eigenfunctions.png"%str;
                          plt_close])).
Proof.
  intro Hloop. unfold plot_results. unfold bind at 1. unfold plt at 1. cbn [fst snd].
  unfold bind at 1. rewrite Hloop. unfold bind, plt. cbn [fst snd].
  rewrite <- !app_assoc. reflexivity.
Qed.

Lemma filter_is_savefig_tail (new : list (plt_call F)) :
  filter (@is_savefig F) new = [] ->
  filter (@is_savefig F)
    (plt_figure 15 10
     :: new ++ [plt_tight_layout; plt_savefig "eigenfunctions.png"%str; plt_close])
  = [plt_savefig "eigenfunctions.png"%str].
Proof. intro Hnew. cbn [filter is_savefig]. rewrite filter_app, Hnew. reflexivity. Qed.

Lemma filter_is_subplot_tail (new : list (plt_call F)) :
  filter (@is_subplot F)
    (plt_figure 15 10
     :: new ++ [plt_tight_layout; plt_savefig "eigenfunctions.png"%str; plt_close])
  = filter (@is_subplot F) new.
Proof. cbn [filter is_subplot]. rewrite filter_app. cbn. apply app_nil_r. Qed.

(** [plot_results] on up to eight pairs that fit the grid. *)
Lemma plot_results_run eigenvalues eigenfunctions calls :
  (length (combine eigenvalues eigenfunctions) <= 8)%nat ->
  Forall (fun p => fits (snd p)) (combine eigenvalues eigenfunctions) ->
  exists drawn,
    plot_results eigenvalues eigenfunctions (self, calls)
    = (inr tt,
       (self,
        calls ++ plt_figure 15 10
                 :: drawn ++ [plt_tight_layout; plt_savefig "eigenfunctions.png"%str;
                              plt_close]))
    /\ filter (@is_subplot F) drawn
       = map (plt_subplot 2 4)
           (Zrange 1 (length (combine eigenvalues eigenfunctions)))
    /\ filter (@is_savefig F) drawn = [].
Proof.
  intros Hn Hfit.
  destruct (@plot_results_loop_completes (combine eigenvalues eigenfunctions)
              0%Z (calls ++ [plt_figure 15 10]))
    as (drawn & Hloop & Hsub & Hsave); [lia | lia | exact Hfit |].
  exists drawn. split; [exact (@plot_results_after_loop _ _ _ _ Hloop) |].
  split; assumption.
Qed.

Lemma last_of_plot_results (drawn : list (plt_call F)) :
  last (plt_figure 15 10
        :: drawn ++ [plt_tight_layout; plt_savefig "eigenfunctions.png"%str; plt_close])
    plt_tight_layout
  = plt_close.
Proof.
  rewrite app_comm_cons.
  change [plt_tight_layout; plt_savefig "eigenfunctions.png"%str; plt_close]
    with ([plt_tight_layout; plt_savefig "eigenfunctions.png"%str] ++ [@plt_close F]).
  rewrite app_assoc. apply last_last.
Qed.

End PlottingFacts.

(** X11.  [plot_results] on at most eight (eigenvalue, eigenfunction) pairs
    whose eigenfunctions have one entry per grid point: it raises nothing,
    leaves the solver as it was, makes the subplots 1, 2, ... of the 2 by 4
    layout, one per pair and in this order, saves the figure exactly once,
    as [eigenfunctions.png], and closes it last. *)
Theorem plot_results_completes {F} `{Scalar F} (self : SturmLiouvilleSolver F)
    (eigenvalues : list F) (eigenfunctions : list (list F))
    (calls : list (plt_call F)) :
  (length (combine eigenvalues eigenfunctions) <= 8)%nat ->
  Forall (fun p => length (snd p) = length (x self))
    (combine eigenvalues eigenfunctions) ->
  exists new,
    plot_results eigenvalues eigenfunctions (self, calls)
    = (inr tt, (self, calls ++ new))
    /\ filter (@is_subplot F) new
       = map (plt_subplot 2 4)
           (Zrange 1 (length (combine eigenvalues eigenfunctions)))
    /\ filter (@is_savefig F) new = [plt_savefig "eigenfunctions.png"%str]
    /\ last new plt_tight_layout = plt_close.
Proof.
  intros Hn Hfit.
  destruct (@plot_results_run F self eigenvalues eigenfunctions calls Hn Hfit)
    as (drawn & Hrun & Hsub & Hsave).
  eexists. split; [exact Hrun |].
  split; [rewrite filter_is_subplot_tail; exact Hsub |].
  split; [exact (@filter_is_savefig_tail F _ Hsave) | apply last_of_plot_results].
Qed.

Lemma plot_results_completes_witness :
  exists new,
    plot_results [1%float; 6%float] [[1%float; 0%float]; [0%float; 1%float]]
      (two_point_solver, [])
    = (inr tt, (two_point_solver, [] ++ new))
    /\ filter (@is_subplot float) new = map (plt_subplot 2 4) (Zrange 1 2)
    /\ filter (@is_savefig float) new = [plt_savefig "eigenfunctions.png"%str]
    /\ last new plt_tight_layout = plt_close.
Proof.
  apply (@plot_results_completes float _ two_point_solver
           [1%float; 6%float] [[1%float; 0%float]; [0%float; 1%float]] []).
  - simpl. lia.
  - repeat constructor.
Defined.

(** X12.  Of matplotlib's failures the model has the two that the
    arguments of [plot_results] can cause.  When [plot_results] raises one
    of them, it is [subplot(2, 4, 9)] refusing a ninth pair, or [plot]
    refusing an eigenfunction whose length is not the grid's; in both cases
    [savefig] has not been called, and the solver is as it was.  (A failure
    of the backend or of the file system is not covered.) *)
Theorem plot_results_failure_saves_nothing {F} `{Scalar F}
    (self self' : SturmLiouvilleSolver F)
    (eigenvalues : list F) (eigenfunctions : list (list F))
    (calls calls' : list (plt_call F)) (e : plot_exn) :
  plot_results eigenvalues eigenfunctions (self, calls) = (inl e, (self', calls')) ->
  self' = self
  /\ (exists new, calls' = calls ++ new /\ filter (@is_savefig F) new = [])
  /\ ((e = ValueError_subplot 9
       /\ (8 < length (combine eigenvalues eigenfunctions))%nat)
      \/ exists u,
           In u eigenfunctions /\ length u <> length (x self)
           /\ e = ValueError_plot_shape (length (x self)) (length u)).
Proof.
  unfold plot_results. unfold bind at 1. unfold plt at 1. cbn [fst snd].
  unfold bind at 1.
  destruct (plot_results_loop 0 (combine eigenvalues eigenfunctions)
              (self, calls ++ [plt_figure 15 10])) as [[e' | []] w1] eqn:Hloop.
  - intro Hrun. injection Hrun as <- ->.
    apply plot_results_loop_raises in Hloop as (new & Hw & Hsave & Hwhy); [| lia].
    injection Hw as -> ->. split; [reflexivity |]. split.
    + exists (plt_figure 15 10 :: new). split; [rewrite <- app_assoc; reflexivity |].
      exact Hsave.
    + destruct Hwhy as [[-> Hlen] | ([lambda_val u] & Hin & Hu & ->)].
      * left. split; [reflexivity | lia].
      * right. exists u. repeat split; [| exact Hu].
        exact (in_combine_r _ _ _ _ Hin).
  - unfold bind, plt. discriminate.
Qed.

Lemma plot_results_failure_saves_nothing_witness :
  two_point_solver = two_point_solver
  /\ (exists new,
         [plt_figure 15 10; plt_subplot 2 4 1] = [] ++ new
         /\ filter (@is_savefig float) new = [])
  /\ ((ValueError_plot_shape 2 3 = ValueError_subplot 9
       /\ (8 < length (combine [1%float] [[1%float; 1%float; 0%float]]))%nat)
      \/ exists u,
           In u [[1%float; 1%float; 0%float]]
           /\ length u <> length (x two_point_solver)
           /\ ValueError_plot_shape 2 3
              = ValueError_plot_shape (length (x two_point_solver)) (length u)).
Proof.
  apply (@plot_results_failure_saves_nothing float _ two_point_solver two_point_solver
           [1%float] [[1%float; 1%float; 0%float]] []).
  reflexivity.
Defined.

